(** * pw_transfer: the client-side transfer manager

    A shallow embedding of [pw_transfer/py/pw_transfer/transfer.py]: the
    [_Timer], the [_Transfer] base class with its two subclasses
    [_WriteTransfer] and [_ReadTransfer], and the [Manager] that owns the
    registries, the streams and the event loop.

    Python objects live in a heap and are named by references; a method
    runs on its [self] object together with the manager it calls back
    into; exceptions and calls that never return are results of the
    monad. *)

From Stdlib Require Import Strings.String.
From stdpp Require Import base list.
From Stdlib Require Import ZArith Lia Strings.Byte Sorted.

Local Open Scope Z_scope.

(** ** Bytes and Python slicing *)

Definition bytes := list byte.

Definition len (b : bytes) : Z := Z.of_nat (length b).

Definition b_ (s : string) : bytes := list_byte_of_string s.

(** A slice bound as Python normalises it: a negative bound counts from
    the end, and both are clamped to the sequence. *)
Definition py_index (i n : Z) : Z :=
  if i <? 0 then Z.max 0 (n + i) else Z.min i n.

(** [b[lo:hi]] *)
Definition slice (b : bytes) (lo hi : Z) : bytes :=
  let l := py_index lo (len b) in
  let h := py_index hi (len b) in
  take (Z.to_nat (h - l)) (drop (Z.to_nat l) b).

(** [b[lo:]] *)
Definition slice_from (b : bytes) (lo : Z) : bytes :=
  drop (Z.to_nat (py_index lo (len b))) b.

(** ** Status and Chunk *)

(** Modelled from the spec: the [pw_status.Status] enumeration is not part
    of the sources at hand.  The spec names the values OK,
    DEADLINE_EXCEEDED, OUT_OF_RANGE, FAILED_PRECONDITION and INTERNAL and
    asks for any other server-supplied code to pass through; [Other]
    stands for such a code.  [ok] is true only for OK. *)
Inductive Status :=
| OK
| DEADLINE_EXCEEDED
| OUT_OF_RANGE
| FAILED_PRECONDITION
| INTERNAL
| Other (code : Z).

Definition ok (s : Status) : bool :=
  match s with OK => true | _ => false end.

(** [status is Status.FAILED_PRECONDITION] *)
Definition is_failed_precondition (s : Status) : bool :=
  match s with FAILED_PRECONDITION => true | _ => false end.

(** Modelled from the spec: the [Chunk] message is generated from a
    protobuf definition that is not part of the sources at hand.  The
    spec lists its fields: [transfer_id] is always present, every other
    field is optional on the wire and its presence can be tested
    ([HasField]).  Reading an absent field gives the protobuf default
    (0, or the empty byte string).  The status field carries a [Status]
    directly, the numeric encoding being left out. *)
Module Chunk.
Record t := mk {
    transfer_id : Z;
    offset : option Z;
    data : option bytes;
    pending_bytes : option Z;
    max_chunk_size_bytes : option Z;
    min_delay_microseconds : option Z;
    remaining_bytes : option Z;
    status : option Status
  }.

  (** [Chunk(transfer_id=i)] *)
Definition new (i : Z) : t := mk i None None None None None None None.

Definition with_offset (v : Z) (c : t) : t :=
    mk (transfer_id c) (Some v) (data c) (pending_bytes c)
       (max_chunk_size_bytes c) (min_delay_microseconds c)
       (remaining_bytes c) (status c).
Definition with_data (v : bytes) (c : t) : t :=
    mk (transfer_id c) (offset c) (Some v) (pending_bytes c)
       (max_chunk_size_bytes c) (min_delay_microseconds c)
       (remaining_bytes c) (status c).
Definition with_pending_bytes (v : Z) (c : t) : t :=
    mk (transfer_id c) (offset c) (data c) (Some v)
       (max_chunk_size_bytes c) (min_delay_microseconds c)
       (remaining_bytes c) (status c).
Definition with_max_chunk_size_bytes (v : Z) (c : t) : t :=
    mk (transfer_id c) (offset c) (data c) (pending_bytes c)
       (Some v) (min_delay_microseconds c)
       (remaining_bytes c) (status c).
Definition with_min_delay_microseconds (v : Z) (c : t) : t :=
    mk (transfer_id c) (offset c) (data c) (pending_bytes c)
       (max_chunk_size_bytes c) (Some v)
       (remaining_bytes c) (status c).
Definition with_remaining_bytes (v : Z) (c : t) : t :=
    mk (transfer_id c) (offset c) (data c) (pending_bytes c)
       (max_chunk_size_bytes c) (min_delay_microseconds c)
       (Some v) (status c).
Definition with_status (v : Status) (c : t) : t :=
    mk (transfer_id c) (offset c) (data c) (pending_bytes c)
       (max_chunk_size_bytes c) (min_delay_microseconds c)
       (remaining_bytes c) (Some v).

  (** Field reads, with the protobuf defaults. *)
Definition get_offset (c : t) : Z := default 0 (offset c).
Definition get_data (c : t) : bytes := default [] (data c).
Definition get_pending_bytes (c : t) : Z := default 0 (pending_bytes c).
End Chunk.

(** ** Exceptions, results and the state monad *)

Inductive Exn :=
| ValueError
| KeyError
| AssertionError
| RuntimeError
| AttributeError
| ReferenceError
| Error (transfer_id : Z) (status : Status).

(** The result of a call: it returns, it raises, or it never returns
    (a loop that does not end, a wait that is not released). *)
Inductive Res (A : Type) :=
| Ret (a : A)
| Raise (e : Exn)
| Hang.
Arguments Ret {A} a.
Arguments Raise {A} e.
Arguments Hang {A}.

Definition St (S A : Type) : Type := S -> Res A * S.

Definition ret {S A} (a : A) : St S A := fun s => (Ret a, s).
Definition raise {S A} (e : Exn) : St S A := fun s => (Raise e, s).
Definition hang {S A} : St S A := fun s => (Hang, s).

Definition bind {S A B} (c : St S A) (k : A -> St S B) : St S B :=
  fun s =>
    match c s with
    | (Ret a, s') => k a s'
    | (Raise e, s') => (Raise e, s')
    | (Hang, s') => (Hang, s')
    end.

Definition gets {S A} (f : S -> A) : St S A := fun s => (Ret (f s), s).
Definition modify {S} (f : S -> S) : St S unit := fun s => (Ret tt, f s).

Notation "'let*' x ':=' c 'in' k" := (bind c (fun x => k))
  (at level 10, x name, c at level 100, k at level 200).
Notation "c >> k" := (bind c (fun _ => k))
  (at level 62, right associativity).

(** ** Python dictionaries

    A [dict] keeps its keys in insertion order, which is the order of
    iteration. *)

(** A reference to an object on the heap. *)
Abbreviation ref := nat.

Definition dict := list (Z * ref).

(** [k in d] *)
Definition dict_mem (k : Z) (d : dict) : bool :=
  existsb (fun kv => fst kv =? k) d.

(** [d[k]]; [None] stands for the KeyError. *)
Fixpoint dict_get (k : Z) (d : dict) : option ref :=
  match d with
  | [] => None
  | (k', v) :: d' => if k' =? k then Some v else dict_get k d'
  end.

(** [d[k] = v]: an existing key keeps its place. *)
Fixpoint dict_set (k : Z) (v : ref) (d : dict) : dict :=
  match d with
  | [] => [(k, v)]
  | (k', v') :: d' =>
      if k' =? k then (k, v) :: d' else (k', v') :: dict_set k v d'
  end.

(** [del d[k]]; [None] stands for the KeyError. *)
Fixpoint dict_del (k : Z) (d : dict) : option dict :=
  match d with
  | [] => None
  | (k', v) :: d' =>
      if k' =? k then Some d'
      else match dict_del k d' with
           | Some d'' => Some ((k', v) :: d'')
           | None => None
           end
  end.

(** ** Transfers

    The fields of [_Transfer] and of its two subclasses.  The
    [_response_timer] is kept as its [_task] handle; [done] is the
    [threading.Event].  [response_timeout_s] only sets how long a timer
    sleeps: a sleeping timer may wake at any later point of a run.

    [history] is not a field of the Python object.  It records, in order,
    what the transfer did: the chunks it passed to [stream.send], the
    chunks its [handle_chunk] was called with, and the calls of
    [done.set()]. *)

Inductive Happening :=
| Sent (c : Chunk.t)
| Handled (c : Chunk.t)
| DoneSet.

Module WriteTransfer.
Record fields := mk {
    offset : Z;
    max_bytes_to_send : Z;
    max_chunk_size : Z;
    chunk_delay_us : option Z
  }.

Definition with_offset (v : Z) (w : fields) : fields :=
    mk v (max_bytes_to_send w) (max_chunk_size w) (chunk_delay_us w).
Definition with_max_bytes_to_send (v : Z) (w : fields) : fields :=
    mk (offset w) v (max_chunk_size w) (chunk_delay_us w).
Definition with_max_chunk_size (v : Z) (w : fields) : fields :=
    mk (offset w) (max_bytes_to_send w) v (chunk_delay_us w).
Definition with_chunk_delay_us (v : option Z) (w : fields) : fields :=
    mk (offset w) (max_bytes_to_send w) (max_chunk_size w) v.
End WriteTransfer.

Module ReadTransfer.
Record fields := mk {
    chunk_timeout_count : Z;
    max_retries : Z;
    max_bytes_to_receive : Z;
    max_chunk_size : Z;
    chunk_delay_us : option Z;
    remaining_transfer_size : option Z;
    offset : Z;
    pending_bytes : Z
  }.

Definition with_chunk_timeout_count (v : Z) (r : fields) : fields :=
    mk v (max_retries r) (max_bytes_to_receive r) (max_chunk_size r)
       (chunk_delay_us r) (remaining_transfer_size r) (offset r)
       (pending_bytes r).
Definition with_remaining_transfer_size (v : option Z) (r : fields)
    : fields :=
    mk (chunk_timeout_count r) (max_retries r) (max_bytes_to_receive r)
       (max_chunk_size r) (chunk_delay_us r) v (offset r) (pending_bytes r).
Definition with_offset (v : Z) (r : fields) : fields :=
    mk (chunk_timeout_count r) (max_retries r) (max_bytes_to_receive r)
       (max_chunk_size r) (chunk_delay_us r) (remaining_transfer_size r) v
       (pending_bytes r).
Definition with_pending_bytes (v : Z) (r : fields) : fields :=
    mk (chunk_timeout_count r) (max_retries r) (max_bytes_to_receive r)
       (max_chunk_size r) (chunk_delay_us r) (remaining_transfer_size r)
       (offset r) v.
End ReadTransfer.

Inductive Variant :=
| IsWrite (w : WriteTransfer.fields)
| IsRead (r : ReadTransfer.fields).

Module Transfer.
Record t := mk {
    id : Z;
    status : Status;
    data : bytes;
    done : bool;
    response_timer : option nat;
    history : list Happening;
    variant : Variant
  }.

Definition with_status (v : Status) (x : t) : t :=
    mk (id x) v (data x) (done x) (response_timer x) (history x) (variant x).
Definition with_data (v : bytes) (x : t) : t :=
    mk (id x) (status x) v (done x) (response_timer x) (history x)
       (variant x).
Definition with_done (v : bool) (x : t) : t :=
    mk (id x) (status x) (data x) v (response_timer x) (history x)
       (variant x).
Definition with_response_timer (v : option nat) (x : t) : t :=
    mk (id x) (status x) (data x) (done x) v (history x) (variant x).
Definition with_history (v : list Happening) (x : t) : t :=
    mk (id x) (status x) (data x) (done x) (response_timer x) v (variant x).
Definition with_variant (v : Variant) (x : t) : t :=
    mk (id x) (status x) (data x) (done x) (response_timer x) (history x) v.
End Transfer.

(** ** The Manager

    The two registries and the two stream handles are the Manager's own
    fields; a stream handle is the number of the [invoke] that opened it.
    [new_transfer_queue] is the queue of transfers waiting for [begin].
    [sleeping] holds the asyncio tasks of the timers that are asleep, each
    with the transfer its [_Timer] belongs to; [next_task] names the next
    task. *)

Inductive Direction := Reading | Writing.

Module Manager.
Record t := mk {
    read_transfers : dict;
    write_transfers : dict;
    read_stream : option nat;
    write_stream : option nat;
    invocations : nat;
    new_transfer_queue : list ref;
    sleeping : list (nat * ref);
    next_task : nat
  }.

Definition transfers (d : Direction) (m : t) : dict :=
    match d with Reading => read_transfers m | Writing => write_transfers m end.
Definition stream (d : Direction) (m : t) : option nat :=
    match d with Reading => read_stream m | Writing => write_stream m end.

Definition with_transfers (d : Direction) (v : dict) (m : t) : t :=
    match d with
    | Reading =>
        mk v (write_transfers m) (read_stream m) (write_stream m)
           (invocations m) (new_transfer_queue m) (sleeping m) (next_task m)
    | Writing =>
        mk (read_transfers m) v (read_stream m) (write_stream m)
           (invocations m) (new_transfer_queue m) (sleeping m) (next_task m)
    end.
Definition with_stream (d : Direction) (v : option nat) (m : t) : t :=
    match d with
    | Reading =>
        mk (read_transfers m) (write_transfers m) v (write_stream m)
           (invocations m) (new_transfer_queue m) (sleeping m) (next_task m)
    | Writing =>
        mk (read_transfers m) (write_transfers m) (read_stream m) v
           (invocations m) (new_transfer_queue m) (sleeping m) (next_task m)
    end.
Definition with_invocations (v : nat) (m : t) : t :=
    mk (read_transfers m) (write_transfers m) (read_stream m)
       (write_stream m) v (new_transfer_queue m) (sleeping m) (next_task m).
Definition with_new_transfer_queue (v : list ref) (m : t) : t :=
    mk (read_transfers m) (write_transfers m) (read_stream m)
       (write_stream m) (invocations m) v (sleeping m) (next_task m).
Definition with_sleeping (v : list (nat * ref)) (m : t) : t :=
    mk (read_transfers m) (write_transfers m) (read_stream m)
       (write_stream m) (invocations m) (new_transfer_queue m) v
       (next_task m).
Definition with_next_task (v : nat) (m : t) : t :=
    mk (read_transfers m) (write_transfers m) (read_stream m)
       (write_stream m) (invocations m) (new_transfer_queue m) (sleeping m)
       v.

  (** [Manager(rpc_transfer_service)] *)
Definition new : t := mk [] [] None None 0%nat [] [] 0%nat.
End Manager.

Record World := mkWorld {
  heap : list Transfer.t;
  manager : Manager.t
}.

Definition World_new : World := mkWorld [] Manager.new.

(** A method runs on its [self] object and on the manager. *)
Definition Method (A : Type) : Type := St (Transfer.t * Manager.t) A.

Definition self_get {A} (f : Transfer.t -> A) : Method A :=
  gets (fun s => f (fst s)).
Definition self_set (f : Transfer.t -> Transfer.t) : Method unit :=
  modify (fun s => (f (fst s), snd s)).

(** A call into the manager from a method. *)
Definition in_manager {A} (c : St Manager.t A) : Method A :=
  fun s => let (res, m') := c (snd s) in (res, (fst s, m')).

(** A method call on the object behind a reference. *)
Definition on {A} (r : ref) (c : Method A) : St World A :=
  fun w =>
    match heap w !! r with
    | None => (Raise ReferenceError, w)
    | Some x =>
        let (res, s') := c (x, manager w) in
        (res, mkWorld (<[r := fst s']> (heap w)) (snd s'))
    end.

(** A call on the manager alone. *)
Definition in_world {A} (c : St Manager.t A) : St World A :=
  fun w => let (res, m') := c (manager w) in (res, mkWorld (heap w) m').

(** The attributes of the subclasses. *)
Definition read_get {A} (f : ReadTransfer.fields -> A) : Method A :=
  let* v := self_get Transfer.variant in
  match v with
  | IsRead r => ret (f r)
  | IsWrite _ => raise AttributeError
  end.
Definition read_set (f : ReadTransfer.fields -> ReadTransfer.fields)
  : Method unit :=
  let* v := self_get Transfer.variant in
  match v with
  | IsRead r => self_set (Transfer.with_variant (IsRead (f r)))
  | IsWrite _ => raise AttributeError
  end.
Definition write_get {A} (f : WriteTransfer.fields -> A) : Method A :=
  let* v := self_get Transfer.variant in
  match v with
  | IsWrite w => ret (f w)
  | IsRead _ => raise AttributeError
  end.
Definition write_set (f : WriteTransfer.fields -> WriteTransfer.fields)
  : Method unit :=
  let* v := self_get Transfer.variant in
  match v with
  | IsWrite w => self_set (Transfer.with_variant (IsWrite (f w)))
  | IsRead _ => raise AttributeError
  end.

Definition note (h : Happening) : Method unit :=
  self_set (fun x => Transfer.with_history (Transfer.history x ++ [h]) x).

(** ** _Timer *)

(** Task [k] is no longer asleep. *)
Definition unschedule (k : nat) : St Manager.t unit :=
  modify (fun m =>
    Manager.with_sleeping
      (filter (fun kr => fst kr ≠ k) (Manager.sleeping m)) m).

(** [task.cancel()]: a sleeping task is taken off the loop; cancelling
    the task that is running the callback takes nothing off. *)
Definition cancel (k : nat) : St Manager.t unit := unschedule k.

(** [asyncio.create_task(self._run(timeout_s))] for the timer of [self]. *)
Definition create_task (self : ref) : St Manager.t nat :=
  let* k := gets Manager.next_task in
  modify (fun m =>
    Manager.with_next_task (S k)
      (Manager.with_sleeping (Manager.sleeping m ++ [(k, self)]) m)) >>
  ret k.

(** [_Timer.stop] *)
Definition timer_stop : Method unit :=
  let* task := self_get Transfer.response_timer in
  match task with
  | Some k =>
      in_manager (cancel k) >>
      self_set (Transfer.with_response_timer None)
  | None => ret tt
  end.

(** [_Timer.start] *)
Definition timer_start (self : ref) : Method unit :=
  timer_stop >>
  let* k := in_manager (create_task self) in
  self_set (Transfer.with_response_timer (Some k)).

(** ** The callbacks a transfer is constructed with

    [Manager.read] gives every [_ReadTransfer] its [_send_read_chunk] and
    [_end_read_transfer], [Manager.write] gives every [_WriteTransfer]
    the two write callbacks. *)

Definition direction (x : Transfer.t) : Direction :=
  match Transfer.variant x with
  | IsRead _ => Reading
  | IsWrite _ => Writing
  end.

(** [Manager._send_read_chunk], [Manager._send_write_chunk] *)
Definition manager_send_chunk (d : Direction) (chunk : Chunk.t)
  : St Manager.t unit :=
  let* stream := gets (Manager.stream d) in
  match stream with
  | None => raise AssertionError
  | Some _ => ret tt
  end.

(** [Manager._end_read_transfer], [Manager._end_write_transfer] *)
Definition manager_end_transfer (d : Direction) (transfer_id : Z)
  : St Manager.t unit :=
  let* transfers := gets (Manager.transfers d) in
  match dict_del transfer_id transfers with
  | None => raise KeyError
  | Some transfers' => modify (Manager.with_transfers d transfers')
  end.

(** [self._send_chunk(chunk)] *)
Definition send_chunk (chunk : Chunk.t) : Method unit :=
  let* d := self_get direction in
  in_manager (manager_send_chunk d chunk) >>
  note (Sent chunk).

(** [self._end_transfer(self)] *)
Definition end_transfer : Method unit :=
  let* d := self_get direction in
  let* i := self_get Transfer.id in
  in_manager (manager_end_transfer d i).

(** ** _Transfer *)

(** [self.done.set()] *)
Definition done_set : Method unit :=
  self_set (Transfer.with_done true) >> note DoneSet.

(** [_Transfer.finish] *)
Definition finish (status : Status) : Method unit :=
  timer_stop >>
  self_set (Transfer.with_status status) >>
  done_set >>
  end_transfer.

(** [_Transfer._send_error] *)
Definition send_error (error : Status) : Method unit :=
  let* i := self_get Transfer.id in
  send_chunk (Chunk.with_status error (Chunk.new i)) >>
  finish error.

(** ** _WriteTransfer *)

(** [_WriteTransfer(transfer_id, data, ...)] *)
Definition WriteTransfer_new (transfer_id : Z) (data : bytes) : Transfer.t :=
  Transfer.mk transfer_id OK data false None []
    (IsWrite (WriteTransfer.mk 0 0 0 None)).

(** [_WriteTransfer.begin] *)
Definition write_begin (self : ref) : Method unit :=
  let* i := self_get Transfer.id in
  send_chunk (Chunk.new i) >>
  timer_start self.

(** [_WriteTransfer._next_chunk] *)
Definition next_chunk : Method Chunk.t :=
  let* i := self_get Transfer.id in
  let* data := self_get Transfer.data in
  let* offset := write_get WriteTransfer.offset in
  let* max_chunk_size := write_get WriteTransfer.max_chunk_size in
  let chunk := Chunk.with_offset offset (Chunk.new i) in
  if len data - offset <=? max_chunk_size then
    ret (Chunk.with_remaining_bytes 0
           (Chunk.with_data (slice_from data offset) chunk))
  else
    ret (Chunk.with_data (slice data offset (offset + max_chunk_size)) chunk).

(** The [while self._max_bytes_to_send > 0] loop of
    [_WriteTransfer.handle_chunk].  The [asyncio.sleep] between two
    chunks changes nothing of the transfer; the loop is run here without
    another task coming in between.  With no fuel left and the condition
    still true, the loop has not ended. *)
Fixpoint send_loop (fuel : nat) : Method unit :=
  let* max_bytes_to_send := write_get WriteTransfer.max_bytes_to_send in
  if max_bytes_to_send >? 0 then
    match fuel with
    | O => hang
    | S fuel' =>
        let* write_chunk := next_chunk in
        let n := len (Chunk.get_data write_chunk) in
        write_set (fun w =>
          WriteTransfer.with_offset (WriteTransfer.offset w + n) w) >>
        write_set (fun w =>
          WriteTransfer.with_max_bytes_to_send
            (WriteTransfer.max_bytes_to_send w - n) w) >>
        send_chunk write_chunk >>
        send_loop fuel'
    end
  else ret tt.

(** [_WriteTransfer.handle_chunk] *)
Definition write_handle_chunk (fuel : nat) (self : ref) (chunk : Chunk.t)
  : Method unit :=
  timer_stop >>
  write_set (WriteTransfer.with_offset (Chunk.get_offset chunk)) >>
  let* offset := write_get WriteTransfer.offset in
  let* data := self_get Transfer.data in
  if offset >? len data then
    send_error OUT_OF_RANGE
  else
    write_set (WriteTransfer.with_max_bytes_to_send
                 (Z.min (Chunk.get_pending_bytes chunk) (len data - offset))) >>
    match Chunk.max_chunk_size_bytes chunk with
    | Some v => write_set (WriteTransfer.with_max_chunk_size v)
    | None => ret tt
    end >>
    match Chunk.min_delay_microseconds chunk with
    | Some v => write_set (WriteTransfer.with_chunk_delay_us (Some v))
    | None => ret tt
    end >>
    send_loop fuel >>
    timer_start self.

(** ** _ReadTransfer *)

(** [_ReadTransfer(transfer_id, ..., max_retries, max_bytes_to_receive,
    max_chunk_size, chunk_delay_us)] *)
Definition ReadTransfer_new (transfer_id : Z) (max_retries : Z)
    (max_bytes_to_receive : Z) (max_chunk_size : Z)
    (chunk_delay_us : option Z) : Transfer.t :=
  Transfer.mk transfer_id OK [] false None []
    (IsRead (ReadTransfer.mk 0 max_retries max_bytes_to_receive
               max_chunk_size chunk_delay_us None 0 max_bytes_to_receive)).

(** [if self._chunk_delay_us:] is false for [None] and for 0. *)
Definition truthy (v : option Z) : bool :=
  match v with
  | Some n => negb (n =? 0)
  | None => false
  end.

(** [_ReadTransfer._send_transfer_parameters] *)
Definition send_transfer_parameters (self : ref) : Method unit :=
  read_set (fun r =>
    ReadTransfer.with_pending_bytes (ReadTransfer.max_bytes_to_receive r) r) >>
  let* i := self_get Transfer.id in
  let* r := read_get (fun r => r) in
  let chunk :=
    Chunk.with_offset (ReadTransfer.offset r)
      (Chunk.with_max_chunk_size_bytes (ReadTransfer.max_chunk_size r)
         (Chunk.with_pending_bytes (ReadTransfer.pending_bytes r)
            (Chunk.new i))) in
  let chunk :=
    if truthy (ReadTransfer.chunk_delay_us r)
    then Chunk.with_min_delay_microseconds
           (default 0 (ReadTransfer.chunk_delay_us r)) chunk
    else chunk in
  send_chunk chunk >>
  timer_start self.

(** [_ReadTransfer.begin] *)
Definition read_begin (self : ref) : Method unit :=
  send_transfer_parameters self.

(** [_ReadTransfer.handle_chunk] *)
Definition read_handle_chunk (self : ref) (chunk : Chunk.t) : Method unit :=
  timer_stop >>
  read_set (ReadTransfer.with_chunk_timeout_count 0) >>
  let* offset := read_get ReadTransfer.offset in
  if negb (Chunk.get_offset chunk =? offset) then
    read_set (ReadTransfer.with_pending_bytes 0) >>
    send_transfer_parameters self
  else
    let n := len (Chunk.get_data chunk) in
    self_set (fun x =>
      Transfer.with_data (Transfer.data x ++ Chunk.get_data chunk) x) >>
    read_set (fun r =>
      ReadTransfer.with_pending_bytes (ReadTransfer.pending_bytes r - n) r) >>
    read_set (fun r =>
      ReadTransfer.with_offset (ReadTransfer.offset r + n) r) >>
    let continue : Method unit :=
      let* pending_bytes := read_get ReadTransfer.pending_bytes in
      if pending_bytes =? 0 then send_transfer_parameters self
      else timer_start self in
    match Chunk.remaining_bytes chunk with
    | Some remaining_bytes =>
        if remaining_bytes =? 0 then
          let* i := self_get Transfer.id in
          send_chunk (Chunk.with_status OK (Chunk.new i)) >>
          finish OK
        else
          read_set (ReadTransfer.with_remaining_transfer_size
                      (Some remaining_bytes)) >>
          continue
    | None => continue
    end.

(** [_ReadTransfer._on_timeout] *)
Definition on_timeout (self : ref) : Method unit :=
  read_set (fun r =>
    ReadTransfer.with_chunk_timeout_count
      (ReadTransfer.chunk_timeout_count r + 1) r) >>
  let* r := read_get (fun r => r) in
  if ReadTransfer.chunk_timeout_count r >? ReadTransfer.max_retries r then
    finish DEADLINE_EXCEEDED
  else
    send_transfer_parameters self.

(** ** Dispatch on the class of the object *)

(** [transfer.begin()] *)
Definition begin (self : ref) : Method unit :=
  let* v := self_get Transfer.variant in
  match v with
  | IsRead _ => read_begin self
  | IsWrite _ => write_begin self
  end.

(** [transfer.handle_chunk(chunk)] *)
Definition handle_chunk (fuel : nat) (self : ref) (chunk : Chunk.t)
  : Method unit :=
  note (Handled chunk) >>
  let* v := self_get Transfer.variant in
  match v with
  | IsRead _ => read_handle_chunk self chunk
  | IsWrite _ => write_handle_chunk fuel self chunk
  end.

(** The callback the [_Timer] of a transfer was made with:
    [self._on_timeout] for a read, [lambda: self.finish(DEADLINE_EXCEEDED)]
    for a write. *)
Definition timer_callback (self : ref) : Method unit :=
  let* v := self_get Transfer.variant in
  match v with
  | IsRead _ => on_timeout self
  | IsWrite _ => finish DEADLINE_EXCEEDED
  end.

(** [_Timer._run] once its sleep is over. *)
Definition timer_run (self : ref) : Method unit :=
  timer_callback self >>
  self_set (Transfer.with_response_timer None).

(** ** Manager *)

(** A new object on the heap. *)
Definition alloc (x : Transfer.t) : St World ref :=
  fun w => (Ret (length (heap w)), mkWorld (heap w ++ [x]) (manager w)).

(** [Manager._open_read_stream], [Manager._open_write_stream]: the stream
    is the call that [invoke] returns. *)
Definition open_stream (d : Direction) : St Manager.t unit :=
  let* n := gets Manager.invocations in
  modify (fun m => Manager.with_stream d (Some n)
                     (Manager.with_invocations (S n) m)).

(** [Manager._start_read_transfer], [Manager._start_write_transfer] *)
Definition start_transfer (d : Direction) (transfer : ref) : St World unit :=
  let* i := on transfer (self_get Transfer.id) in
  in_world (
    modify (fun m =>
      Manager.with_transfers d (dict_set i transfer (Manager.transfers d m)) m) >>
    let* stream := gets (Manager.stream d) in
    match stream with
    | None => open_stream d
    | Some _ => ret tt
    end >>
    modify (fun m =>
      Manager.with_new_transfer_queue
        (Manager.new_transfer_queue m ++ [transfer]) m)).

(** [Manager.read], up to [transfer.done.wait()]. *)
Definition read_call (transfer_id : Z) : St World ref :=
  let* transfers := in_world (gets Manager.read_transfers) in
  if dict_mem transfer_id transfers then raise ValueError
  else
    let* transfer := alloc (ReadTransfer_new transfer_id 3 8192 1024 None) in
    start_transfer Reading transfer >>
    ret transfer.

(** [Manager.write], up to [transfer.done.wait()]. *)
Definition write_call (transfer_id : Z) (data : bytes) : St World ref :=
  let* transfers := in_world (gets Manager.write_transfers) in
  if dict_mem transfer_id transfers then raise ValueError
  else
    let* transfer := alloc (WriteTransfer_new transfer_id data) in
    start_transfer Writing transfer >>
    ret transfer.

(** [transfer.done.wait()]: the caller is held while [done] is unset. *)
Definition done_wait : Method unit :=
  let* done := self_get Transfer.done in
  if done then ret tt else hang.

(** [Manager.read], from [transfer.done.wait()] on. *)
Definition read_return (transfer : ref) : St World bytes :=
  on transfer (
    done_wait >>
    let* status := self_get Transfer.status in
    let* i := self_get Transfer.id in
    if negb (ok status) then raise (Error i status)
    else self_get Transfer.data).

(** [Manager.write], from [transfer.done.wait()] on. *)
Definition write_return (transfer : ref) : St World unit :=
  on transfer (
    done_wait >>
    let* status := self_get Transfer.status in
    let* i := self_get Transfer.id in
    if negb (ok status) then raise (Error i status)
    else ret tt).

(** [Manager._handle_chunk(transfers, chunk)], called with the registry
    of the stream the chunk came from. *)
Definition manager_handle_chunk (fuel : nat) (d : Direction) (chunk : Chunk.t)
  : St World unit :=
  let* transfers := in_world (gets (Manager.transfers d)) in
  match dict_get (Chunk.transfer_id chunk) transfers with
  | None => ret tt
  | Some transfer =>
      match Chunk.status chunk with
      | None => on transfer (handle_chunk fuel transfer chunk)
      | Some status => on transfer (finish status)
      end
  end.

(** [for _, transfer in transfers.items(): transfer.finish(INTERNAL)].
    The iterator remembers the size the dictionary had when the loop
    began and raises [RuntimeError] when it is asked for the next item of
    a dictionary whose size is no longer that one.  [items] are the
    entries still to visit. *)
Fixpoint finish_all (d : Direction) (used : nat) (items : dict)
  : St World unit :=
  let* transfers := in_world (gets (Manager.transfers d)) in
  if negb (length transfers =? used)%nat then raise RuntimeError
  else
    match items with
    | [] => ret tt
    | (_, transfer) :: items' =>
        on transfer (finish INTERNAL) >>
        finish_all d used items'
    end.

(** [Manager._on_read_error], [Manager._on_write_error] *)
Definition on_error (d : Direction) (status : Status) : St World unit :=
  if is_failed_precondition status then
    in_world (open_stream d)
  else
    in_world (modify (Manager.with_stream d None)) >>
    let* transfers := in_world (gets (Manager.transfers d)) in
    finish_all d (length transfers) transfers >>
    in_world (modify (Manager.with_transfers d [])).

Definition on_read_error : Status -> St World unit := on_error Reading.
Definition on_write_error : Status -> St World unit := on_error Writing.

(** ** The event loop

    What can happen to a Manager: a caller enters [read] or [write]; the
    loop takes a new transfer off the queue and begins it; a chunk arrives
    on a stream; a sleeping timer wakes; a stream reports an error. *)
Inductive Event :=
| CallRead (transfer_id : Z)
| CallWrite (transfer_id : Z) (data : bytes)
| NewTransfer
| ReadChunk (chunk : Chunk.t)
| WriteChunk (chunk : Chunk.t)
| TimerWakes (task : nat)
| ReadError (status : Status)
| WriteError (status : Status).

(** [await new_transfer.result().begin()] *)
Definition begin_next : St World unit :=
  let* queue := in_world (gets Manager.new_transfer_queue) in
  match queue with
  | [] => ret tt
  | transfer :: queue' =>
      in_world (modify (Manager.with_new_transfer_queue queue')) >>
      on transfer (begin transfer)
  end.

(** The owner of a sleeping timer task. *)
Fixpoint owner (k : nat) (sleeping : list (nat * ref)) : option ref :=
  match sleeping with
  | [] => None
  | (k', r) :: rest => if (k' =? k)%nat then Some r else owner k rest
  end.

(** A sleeping timer task wakes and runs the rest of [_Timer._run]. *)
Definition timer_wakes (k : nat) : St World unit :=
  let* sleeping := in_world (gets Manager.sleeping) in
  match owner k sleeping with
  | None => ret tt
  | Some transfer =>
      in_world (unschedule k) >>
      on transfer (timer_run transfer)
  end.

Definition step (fuel : nat) (ev : Event) : St World unit :=
  match ev with
  | CallRead i => read_call i >> ret tt
  | CallWrite i data => write_call i data >> ret tt
  | NewTransfer => begin_next
  | ReadChunk chunk => manager_handle_chunk fuel Reading chunk
  | WriteChunk chunk => manager_handle_chunk fuel Writing chunk
  | TimerWakes k => timer_wakes k
  | ReadError status => on_read_error status
  | WriteError status => on_write_error status
  end.

(** A run of the manager.  An exception of a task ends that task only;
    the world stays as the task left it. *)
Definition run (fuel : nat) (evs : list Event) (w : World) : World :=
  fold_left (fun w ev => snd (step fuel ev w)) evs w.

(** ** What the statements speak of *)

(** The chunks a transfer sent, and the chunks it handled, in order. *)
Fixpoint sent (h : list Happening) : list Chunk.t :=
  match h with
  | [] => []
  | Sent c :: h' => c :: sent h'
  | _ :: h' => sent h'
  end.

Fixpoint handled (h : list Happening) : list Chunk.t :=
  match h with
  | [] => []
  | Handled c :: h' => c :: handled h'
  | _ :: h' => handled h'
  end.

(** How often [done.set()] was called. *)
Fixpoint done_sets (h : list Happening) : nat :=
  match h with
  | [] => 0%nat
  | DoneSet :: h' => S (done_sets h')
  | _ :: h' => done_sets h'
  end.

(** What happened after [done] was set for the first time. *)
Fixpoint after_done (h : list Happening) : list Happening :=
  match h with
  | [] => []
  | DoneSet :: h' => h'
  | _ :: h' => after_done h'
  end.

(** The parameters chunk of a read transfer with the fields [r]. *)
Definition parameters_chunk (transfer_id : Z) (r : ReadTransfer.fields)
  : Chunk.t :=
  let chunk :=
    Chunk.mk transfer_id (Some (ReadTransfer.offset r)) None
      (Some (ReadTransfer.max_bytes_to_receive r))
      (Some (ReadTransfer.max_chunk_size r)) None None None in
  match ReadTransfer.chunk_delay_us r with
  | Some v => if v =? 0 then chunk
              else Chunk.with_min_delay_microseconds v chunk
  | None => chunk
  end.

(** The terminating chunk [{transfer_id, status}]. *)
Definition status_chunk (transfer_id : Z) (s : Status) : Chunk.t :=
  Chunk.mk transfer_id None None None None None None (Some s).

(** A transfer is registered when its id is a key of the registry of its
    direction. *)
Definition registered (x : Transfer.t) (m : Manager.t) : bool :=
  dict_mem (Transfer.id x) (Manager.transfers (direction x) m).

(** A sleeping timer task that belongs to the transfer behind [r]. *)
Definition timer_asleep (r : ref) (m : Manager.t) : bool :=
  existsb (fun kr => (snd kr =? r)%nat) (Manager.sleeping m).

(** The chunk [_next_chunk] builds for a write transfer with payload
    [data] and the fields [w]. *)
Definition next_chunk_of (transfer_id : Z) (data : bytes)
    (w : WriteTransfer.fields) : Chunk.t :=
  let offset := WriteTransfer.offset w in
  if len data - offset <=? WriteTransfer.max_chunk_size w then
    Chunk.mk transfer_id (Some offset) (Some (slice_from data offset))
      None None None (Some 0) None
  else
    Chunk.mk transfer_id (Some offset)
      (Some (slice data offset (offset + WriteTransfer.max_chunk_size w)))
      None None None None None.

(** The write fields after a chunk of [n] bytes went out. *)
Definition advance (n : Z) (w : WriteTransfer.fields) : WriteTransfer.fields :=
  WriteTransfer.with_max_bytes_to_send (WriteTransfer.max_bytes_to_send w - n)
    (WriteTransfer.with_offset (WriteTransfer.offset w + n) w).

(** The write fields once [handle_chunk] has taken the offset, the
    window and the optional parameters from [chunk], for a payload of
    [n] bytes. *)
Definition take_parameters (chunk : Chunk.t) (n : Z)
    (w : WriteTransfer.fields) : WriteTransfer.fields :=
  WriteTransfer.mk
    (Chunk.get_offset chunk)
    (Z.min (Chunk.get_pending_bytes chunk) (n - Chunk.get_offset chunk))
    (default (WriteTransfer.max_chunk_size w)
       (Chunk.max_chunk_size_bytes chunk))
    (match Chunk.min_delay_microseconds chunk with
     | Some v => Some v
     | None => WriteTransfer.chunk_delay_us w
     end).

(** The manager without the sleeping task [k]. *)
Definition without_task (k : nat) (m : Manager.t) : Manager.t :=
  Manager.with_sleeping (filter (fun kr => fst kr ≠ k) (Manager.sleeping m)) m.

(** The manager once the timer of [x] was stopped. *)
Definition timer_stopped (x : Transfer.t) (m : Manager.t) : Manager.t :=
  match Transfer.response_timer x with
  | Some k => without_task k m
  | None => m
  end.

(** Every sleeping task was named before [next_task]. *)
Definition tasks_named (m : Manager.t) : Prop :=
  Forall (fun kr => (fst kr < Manager.next_task m)%nat) (Manager.sleeping m).

(** No chunk arrives: the timer tasks [k], [k+1], ... wake one after the
    other. *)
Definition timeouts (k n : nat) : list Event := map TimerWakes (seq k n).

(** A read transfer [x] with fields [r] after [begin] and [j] timeouts
    that were answered with a retry, and the manager [m] waiting for the
    next timeout; [k] is the task of the first timer. *)
Definition retrying (x : Transfer.t) (r : ReadTransfer.fields) (k j : nat)
  : Transfer.t :=
  Transfer.mk (Transfer.id x) (Transfer.status x) (Transfer.data x)
    (Transfer.done x)
    (match j with O => Some k | S _ => None end)
    (Transfer.history x
       ++ repeat (Sent (parameters_chunk (Transfer.id x) r)) (S j))
    (IsRead (ReadTransfer.with_pending_bytes
               (ReadTransfer.max_bytes_to_receive r)
               (ReadTransfer.with_chunk_timeout_count (Z.of_nat j) r))).

Definition waiting (m : Manager.t) (self : ref) (j : nat) : Manager.t :=
  Manager.with_next_task (S (Manager.next_task m + j))
    (Manager.with_sleeping
       (Manager.sleeping m ++ [(Manager.next_task m + j, self)%nat]) m).

(** The read transfer after the timeout that exceeded [max_retries = n],
    and the manager it has left. *)
Definition gave_up (x : Transfer.t) (r : ReadTransfer.fields) (n : nat)
  : Transfer.t :=
  Transfer.mk (Transfer.id x) DEADLINE_EXCEEDED (Transfer.data x) true None
    (Transfer.history x
       ++ repeat (Sent (parameters_chunk (Transfer.id x) r)) (S n)
       ++ [DoneSet])
    (IsRead (ReadTransfer.with_pending_bytes
               (ReadTransfer.max_bytes_to_receive r)
               (ReadTransfer.with_chunk_timeout_count (Z.of_nat (S n)) r))).

Definition left_behind (m : Manager.t) (transfers' : dict) (n : nat)
  : Manager.t :=
  Manager.with_transfers Reading transfers'
    (Manager.with_next_task (S (Manager.next_task m + n)) m).

(** The chunks a read transfer takes out of the chunks it is handed: a
    chunk is taken when its offset is the number of bytes taken before
    it, counted from [expected]. *)
Fixpoint in_order (expected : Z) (cs : list Chunk.t) : list Chunk.t :=
  match cs with
  | [] => []
  | c :: cs' =>
      if Chunk.get_offset c =? expected
      then c :: in_order (expected + len (Chunk.get_data c)) cs'
      else in_order expected cs'
  end.

(** The bytes of a list of chunks, one after the other. *)
Definition payload (cs : list Chunk.t) : bytes :=
  concat (map Chunk.get_data cs).

(** A method keeps a property of its [self] object. *)
Definition preserves {A} (P : Transfer.t -> Prop) (c : Method A) : Prop :=
  forall x m, P x -> P (fst (snd (c (x, m)))).

(** A property holds of every transfer on the heap. *)
Definition heap_all (P : Transfer.t -> Prop) (w : World) : Prop :=
  Forall P (heap w).

(** What it takes for a property of single transfers to hold of every
    transfer on the heap throughout every run: the constructors
    establish it and the methods the manager calls keep it. *)
Record method_invariant (P : Transfer.t -> Prop) : Prop := {
  inv_new_read : forall i a b c d, P (ReadTransfer_new i a b c d);
  inv_new_write : forall i d, P (WriteTransfer_new i d);
  inv_begin : forall self, preserves P (begin self);
  inv_handle_chunk :
    forall fuel self chunk, preserves P (handle_chunk fuel self chunk);
  inv_finish : forall s, preserves P (finish s);
  inv_timer_run : forall self, preserves P (timer_run self)
}.

(** The data of a read transfer is what it took in order, and its offset
    is the length of that. *)
Definition read_in_order (x : Transfer.t) : Prop :=
  forall r, Transfer.variant x = IsRead r ->
    Transfer.data x = payload (in_order 0 (handled (Transfer.history x))) /\
    ReadTransfer.offset r = len (Transfer.data x).

(** The data length of a chunk that counts for a transfer: a terminating
    chunk counts for nothing. *)
Definition data_length (c : Chunk.t) : Z :=
  match Chunk.status c with
  | None => len (Chunk.get_data c)
  | Some _ => 0
  end.

(** The sum of the data lengths of the non-terminating chunks sent. *)
Fixpoint bytes_sent (h : list Happening) : Z :=
  match h with
  | [] => 0
  | Sent c :: h' => data_length c + bytes_sent h'
  | _ :: h' => bytes_sent h'
  end.



(** What a write transfer of [n] bytes sent, from the offset [reached]
    on: no terminating chunk; every offset is the number of bytes sent
    before; no chunk goes past the payload; a chunk marked with
    [remaining_bytes = 0] ends where the payload ends. *)
Fixpoint contiguous (n reached : Z) (h : list Happening) : Prop :=
  match h with
  | [] => True
  | Sent c :: h' =>
      Chunk.status c = None /\
      (forall o, Chunk.offset c = Some o -> o = reached) /\
      reached + len (Chunk.get_data c) <= n /\
      (Chunk.remaining_bytes c = Some 0 ->
       reached + len (Chunk.get_data c) = n) /\
      contiguous n (reached + len (Chunk.get_data c)) h'
  | _ :: h' => contiguous n reached h'
  end.


(** A method call that takes no chunk in: the payload stays, nothing is
    handled, a write transfer keeps its fields and sends at most its
    bare first chunk, a read transfer keeps its offset. *)
Definition quiet_step (x x' : Transfer.t) : Prop :=
  exists rest,
    Transfer.id x' = Transfer.id x /\
    Transfer.data x' = Transfer.data x /\
    Transfer.history x' = Transfer.history x ++ rest /\
    handled rest = [] /\
    match Transfer.variant x with
    | IsWrite w =>
        Transfer.variant x' = IsWrite w /\
        Forall (fun e => e = DoneSet \/ e = Sent (Chunk.new (Transfer.id x)))
          rest
    | IsRead r =>
        exists r', Transfer.variant x' = IsRead r' /\
                   ReadTransfer.offset r' = ReadTransfer.offset r
    end.

(** ** Chunks of a server, and runs *)

(** A parameters update of a write: [{id, offset, pending_bytes,
    max_chunk_size_bytes}]. *)
Definition parameters_update (i offset pending_bytes max_chunk_size : Z)
  : Chunk.t :=
  Chunk.mk i (Some offset) None (Some pending_bytes) (Some max_chunk_size)
    None None None.

(** A data chunk of a read: [{id, offset, data}], and the last one, with
    [remaining_bytes = 0]. *)
Definition data_chunk (i offset : Z) (data : bytes) : Chunk.t :=
  Chunk.mk i (Some offset) (Some data) None None None None None.

Definition last_data_chunk (i offset : Z) (data : bytes) : Chunk.t :=
  Chunk.mk i (Some offset) (Some data) None None None (Some 0) None.

(** A read that meets a gap: after [b"ab"] at 0 the server sends [b"xy"]
    at 5, then [b"c"] at 2 as the last chunk. *)
Definition gap_run : list Event :=
  [CallRead 3; NewTransfer;
   ReadChunk (data_chunk 3 0 (b_ "ab"));
   ReadChunk (data_chunk 3 5 (b_ "xy"));
   ReadChunk (last_data_chunk 3 2 (b_ "c"))].


(** A write of ten bytes whose server asks for eight bytes, rolls back
    to offset 0 for four more and then ends the transfer with OK. *)
Definition rollback_run : list Event :=
  [CallWrite 1 (b_ "0123456789"); NewTransfer;
   WriteChunk (parameters_update 1 0 8 4);
   WriteChunk (parameters_update 1 0 4 4);
   WriteChunk (status_chunk 1 OK)].

(** A read whose first timeout is answered with a retry and whose only
    chunk is the last one. *)
Definition late_timer_run : list Event :=
  [CallRead 3; NewTransfer; TimerWakes 0;
   ReadChunk (last_data_chunk 3 0 (b_ "ab"))].

(** Two reads in flight. *)
Definition two_reads : World :=
  run 0 [CallRead 3; CallRead 4; NewTransfer; NewTransfer] World_new.

(** A read and a write in flight, both begun. *)
Definition read_and_write : World :=
  run 0 [CallRead 3; CallWrite 7 (b_ "hello"); NewTransfer; NewTransfer]
    World_new.

(** A manager with one read transfer made with [max_retries = 2],
    registered and not yet begun. *)
Definition read_with_two_retries : World :=
  snd (bind (alloc (ReadTransfer_new 3 2 8192 1024 None))
         (start_transfer Reading) World_new).

(** The read transfer 3 and the write transfer 7 of [read_and_write],
    as [begin] left them. *)
Definition read_3 : Transfer.t :=
  Transfer.mk 3 OK [] false (Some 0%nat)
    [Sent (Chunk.mk 3 (Some 0) None (Some 8192) (Some 1024) None None None)]
    (IsRead (ReadTransfer.mk 0 3 8192 1024 None None 0 8192)).

Definition write_7 : Transfer.t :=
  Transfer.mk 7 OK (b_ "hello") false (Some 1%nat) [Sent (Chunk.new 7)]
    (IsWrite (WriteTransfer.mk 0 0 0 None)).

(** ** More of what the statements speak of *)

(** The manager after a new transfer [r] with the id [i] was started in
    the direction [d]: registered, the stream opened if it was not open,
    and the transfer queued for [begin]. *)
Definition started (d : Direction) (i : Z) (r : ref) (m : Manager.t)
  : Manager.t :=
  let m1 :=
    Manager.with_transfers d (dict_set i r (Manager.transfers d m)) m in
  let m2 :=
    match Manager.stream d m1 with
    | None =>
        Manager.with_stream d (Some (Manager.invocations m1))
          (Manager.with_invocations (S (Manager.invocations m1)) m1)
    | Some _ => m1
    end in
  Manager.with_new_transfer_queue (Manager.new_transfer_queue m2 ++ [r]) m2.

(** [done] is set exactly when [done.set()] was called, and a transfer
    whose [done] is unset still has the status OK it was made with. *)
Definition done_as_recorded (x : Transfer.t) : Prop :=
  Transfer.done x = negb (done_sets (Transfer.history x) =? 0)%nat /\
  (Transfer.done x = false -> Transfer.status x = OK).

(** A method call either leaves [done], the status and the count of
    [done.set()] alone, or it sets [done] and counts one more. *)
Definition calm_or_finishing (x x' : Transfer.t) : Prop :=
  (Transfer.done x' = Transfer.done x /\
   Transfer.status x' = Transfer.status x /\
   done_sets (Transfer.history x') = done_sets (Transfer.history x)) \/
  (Transfer.done x' = true /\
   done_sets (Transfer.history x') = S (done_sets (Transfer.history x))).



(** The registries of a manager [m] and the object [x] before a method
    call on [x], and [m'] and [x'] after it.  The call keeps the id and
    the class of the object, and it does one of three things: it leaves
    both registries and [done] alone; or it leaves both registries alone
    because the id of the object is no key of the registry of its
    direction; or it takes the entry of that id out of that registry and
    leaves the other registry alone. *)
Definition registry_step (x : Transfer.t) (m : Manager.t)
    (x' : Transfer.t) (m' : Manager.t) : Prop :=
  Transfer.id x' = Transfer.id x /\
  direction x' = direction x /\
  ((Manager.read_transfers m' = Manager.read_transfers m /\
    Manager.write_transfers m' = Manager.write_transfers m /\
    Transfer.done x' = Transfer.done x) \/
   (Manager.read_transfers m' = Manager.read_transfers m /\
    Manager.write_transfers m' = Manager.write_transfers m /\
    dict_del (Transfer.id x) (Manager.transfers (direction x) m) = None) \/
   (dict_del (Transfer.id x) (Manager.transfers (direction x) m)
      = Some (Manager.transfers (direction x) m') /\
    forall d, d <> direction x ->
      Manager.transfers d m' = Manager.transfers d m)).

(** The registry of the direction [d] is in order: no key twice, and
    every entry [(i, r)] names an object on the heap that has the id
    [i], is of the class of [d], and whose [done] is unset. *)
Definition registry_ok (d : Direction) (w : World) : Prop :=
  NoDup (Manager.transfers d (manager w)).*1 /\
  forall i r, (i, r) ∈ Manager.transfers d (manager w) ->
    exists x, heap w !! r = Some x /\ Transfer.id x = i /\
              direction x = d /\ Transfer.done x = false.

Definition registries_ok (w : World) : Prop := forall d, registry_ok d w.

(** * Properties *)

(** ** Running a method by hand *)

Ltac unfold_methods :=
  unfold read_begin, on_timeout, read_handle_chunk, write_handle_chunk,
    write_begin, send_transfer_parameters, next_chunk, send_error, finish,
    done_set,
    end_transfer, send_chunk, timer_start, timer_stop, manager_end_transfer,
    manager_send_chunk, create_task, cancel, unschedule, note,
    read_get, read_set, write_get, write_set, self_get, self_set, in_manager,
    direction, bind, ret, raise, hang, gets, modify in *.

Lemma world_eta (w : World) : mkWorld (heap w) (manager w) = w.
Proof. destruct w; reflexivity. Qed.

Lemma dict_mem_del (k : Z) (d : dict) :
  dict_mem k d = true -> exists d', dict_del k d = Some d'.
Proof.
  induction d as [|[k' v] d IH]; simpl; [discriminate|].
  destruct (k' =? k); simpl; [eauto|].
  intros H. destruct (IH H) as [d' ->]. eauto.
Qed.

(** C7: when a transfer id is a key of the registry of a direction, a
    second [read] (or [write]) with that id raises ValueError at once
    and leaves the whole world as it was: no transfer is made, nothing
    is put on the queue of new transfers, and the registered transfer is
    untouched. *)
Theorem duplicate_id_is_rejected (w : World) (transfer_id : Z) :
  (dict_mem transfer_id (Manager.read_transfers (manager w)) = true ->
   read_call transfer_id w = (Raise ValueError, w)) /\
  (dict_mem transfer_id (Manager.write_transfers (manager w)) = true ->
   forall data, write_call transfer_id data w = (Raise ValueError, w)).
Proof.
  split; intros H; [|intros data];
    unfold read_call, write_call, in_world, bind, gets, raise;
    rewrite H; destruct w; reflexivity.
Qed.

Lemma send_transfer_parameters_run self x m r h :
  Transfer.variant x = IsRead r ->
  Manager.read_stream m = Some h ->
  send_transfer_parameters self (x, m) =
    (Ret tt,
     (Transfer.mk (Transfer.id x) (Transfer.status x) (Transfer.data x)
        (Transfer.done x) (Some (Manager.next_task m))
        (Transfer.history x ++ [Sent (parameters_chunk (Transfer.id x) r)])
        (IsRead (ReadTransfer.with_pending_bytes
                   (ReadTransfer.max_bytes_to_receive r) r)),
      Manager.with_next_task (S (Manager.next_task m))
        (Manager.with_sleeping
           (match Transfer.response_timer x with
            | Some k => filter (fun kr => fst kr ≠ k) (Manager.sleeping m)
            | None => Manager.sleeping m
            end ++ [(Manager.next_task m, self)]) m))).
Proof.
  intros Hv Hs. destruct x as [i s d dn tm hs v], m as [rt wt rs ws inv q sl nt].
  simpl in *. subst. unfold_methods. cbn.
  unfold parameters_chunk, truthy. cbn.
  destruct (ReadTransfer.chunk_delay_us r) as [v|]; [destruct (v =? 0)|];
    destruct tm; reflexivity.
Qed.

(** C9: [_send_transfer_parameters] called twice in a row, on an open
    read stream, sends the same parameters chunk twice; the
    [pending_bytes] it resets has no part in the chunk beyond
    [max_bytes_to_receive]. *)
Theorem parameters_resend_is_identical self x m r h :
  Transfer.variant x = IsRead r ->
  Manager.read_stream m = Some h ->
  let chunk := parameters_chunk (Transfer.id x) r in
  exists s1 s2,
    send_transfer_parameters self (x, m) = (Ret tt, s1) /\
    send_transfer_parameters self s1 = (Ret tt, s2) /\
    Transfer.history (fst s1) = Transfer.history x ++ [Sent chunk] /\
    Transfer.history (fst s2) = Transfer.history (fst s1) ++ [Sent chunk].
Proof.
  intros Hv Hs chunk.
  pose proof (send_transfer_parameters_run self x m r h Hv Hs) as E1.
  eexists _, _. split; [exact E1|]. split.
  - erewrite send_transfer_parameters_run; [reflexivity|reflexivity|].
    destruct m; simpl in *. exact Hs.
  - split; reflexivity.
Qed.

Lemma parameters_chunk_offset i r :
  Chunk.offset (parameters_chunk i r) = Some (ReadTransfer.offset r).
Proof.
  unfold parameters_chunk.
  destruct (ReadTransfer.chunk_delay_us r) as [v|]; [destruct (v =? 0)|];
    reflexivity.
Qed.

(** C6: when a read transfer, its stream open, is handed a chunk whose
    offset is not the offset it expects, [handle_chunk] returns without
    an exception, leaves the data, the offset, [done], the status and
    the registry as they were, and sends one parameters chunk, whose
    offset is that unchanged offset. *)
Theorem out_of_order_chunk_is_ignored fuel self x m r h chunk :
  Transfer.variant x = IsRead r ->
  Manager.read_stream m = Some h ->
  Chunk.get_offset chunk <> ReadTransfer.offset r ->
  exists x' m' r',
    handle_chunk fuel self chunk (x, m) = (Ret tt, (x', m')) /\
    Transfer.data x' = Transfer.data x /\
    Transfer.variant x' = IsRead r' /\
    ReadTransfer.offset r' = ReadTransfer.offset r /\
    Transfer.done x' = Transfer.done x /\
    Transfer.status x' = Transfer.status x /\
    Manager.read_transfers m' = Manager.read_transfers m /\
    Transfer.history x' =
      Transfer.history x ++
        [Handled chunk; Sent (parameters_chunk (Transfer.id x) r)] /\
    Chunk.offset (parameters_chunk (Transfer.id x) r) =
      Some (ReadTransfer.offset r).
Proof.
  intros Hv Hs Hne.
  apply Z.eqb_neq in Hne.
  destruct x as [i s d dn tm hs v], m as [rt wt rs ws inv q sl nt].
  simpl in *. subst.
  unfold handle_chunk. unfold_methods. cbn.
  destruct tm; cbn; rewrite Hne; cbn;
    (eexists _, _, _; split; [reflexivity|]);
    cbn; rewrite <- app_assoc; cbn;
    repeat split; try reflexivity;
    try apply parameters_chunk_offset.
  all: unfold parameters_chunk, truthy; cbn;
    destruct (ReadTransfer.chunk_delay_us r) as [v|]; [destruct (v =? 0)|];
    reflexivity.
Qed.

(** C5: when a registered write transfer, its stream open, is handed a
    chunk whose offset is greater than the length of the payload,
    [handle_chunk] sends the terminating chunk [{id, OUT_OF_RANGE}] and
    nothing else, sets the status to OUT_OF_RANGE, sets [done] and
    takes the transfer out of the registry. *)
Theorem offset_past_the_end_is_out_of_range fuel self x m w h chunk :
  Transfer.variant x = IsWrite w ->
  Manager.write_stream m = Some h ->
  registered x m = true ->
  Chunk.get_offset chunk > len (Transfer.data x) ->
  exists x' m' transfers',
    handle_chunk fuel self chunk (x, m) = (Ret tt, (x', m')) /\
    Transfer.history x' =
      Transfer.history x ++
        [Handled chunk; Sent (status_chunk (Transfer.id x) OUT_OF_RANGE);
         DoneSet] /\
    Transfer.status x' = OUT_OF_RANGE /\
    Transfer.done x' = true /\
    dict_del (Transfer.id x) (Manager.write_transfers m) = Some transfers' /\
    Manager.write_transfers m' = transfers'.
Proof.
  intros Hv Hs Hreg Hgt.
  unfold registered, direction in Hreg. rewrite Hv in Hreg.
  destruct (dict_mem_del _ _ Hreg) as [d' Hd'].
  apply Z.gtb_gt in Hgt.
  destruct x as [i s d dn tm hs v], m as [rt wt rs ws inv q sl nt].
  simpl in *. subst.
  unfold handle_chunk. unfold_methods. cbn.
  destruct tm; cbn; rewrite Hgt; cbn; rewrite Hd'; cbn;
    (eexists _, _, _; split; [reflexivity|]);
    cbn; repeat rewrite <- app_assoc; cbn;
    repeat split; reflexivity.
Qed.

(** ** Slices *)

Lemma len_nonneg (b : bytes) : 0 <= len b.
Proof. unfold len. lia. Qed.

Lemma len_app (a b : bytes) : len (a ++ b) = len a + len b.
Proof. unfold len. rewrite length_app. lia. Qed.

Lemma py_index_in_range (i n : Z) : 0 <= i <= n -> py_index i n = i.
Proof. unfold py_index. intros H. destruct (i <? 0) eqn:E; lia. Qed.

Lemma py_index_bounds (i n : Z) : 0 <= n -> 0 <= py_index i n <= n.
Proof. unfold py_index. intros H. destruct (i <? 0) eqn:E; lia. Qed.

Lemma len_slice_from (b : bytes) (lo : Z) :
  0 <= lo <= len b -> len (slice_from b lo) = len b - lo.
Proof.
  intros H. unfold slice_from. rewrite py_index_in_range by exact H.
  unfold len in *. rewrite length_drop. lia.
Qed.


Lemma len_slice_le (b : bytes) (lo hi : Z) :
  0 <= lo <= len b -> len (slice b lo hi) <= len b - lo.
Proof.
  intros H. unfold slice. rewrite (py_index_in_range lo) by exact H.
  unfold len in *. rewrite length_take, length_drop. lia.
Qed.


(** ** The sending loop of a write transfer *)

Lemma next_chunk_run x m w :
  Transfer.variant x = IsWrite w ->
  next_chunk (x, m) =
    (Ret (next_chunk_of (Transfer.id x) (Transfer.data x) w), (x, m)).
Proof.
  intros Hv. destruct x as [i s d dn tm hs v]. simpl in *. subst.
  unfold_methods. cbn. unfold next_chunk_of. cbn.
  destruct (len d - WriteTransfer.offset w <=? WriteTransfer.max_chunk_size w);
    reflexivity.
Qed.

Lemma send_loop_end fuel x m w :
  Transfer.variant x = IsWrite w ->
  WriteTransfer.max_bytes_to_send w <= 0 ->
  send_loop fuel (x, m) = (Ret tt, (x, m)).
Proof.
  intros Hv Hb. destruct x as [i s d dn tm hs v]. simpl in *. subst.
  assert (E : (WriteTransfer.max_bytes_to_send w >? 0) = false) by lia.
  destruct fuel; simpl; unfold_methods; cbn; rewrite E; reflexivity.
Qed.

Lemma send_loop_out_of_fuel x m w :
  Transfer.variant x = IsWrite w ->
  0 < WriteTransfer.max_bytes_to_send w ->
  send_loop 0 (x, m) = (Hang, (x, m)).
Proof.
  intros Hv Hb. destruct x as [i s d dn tm hs v]. simpl in *. subst.
  assert (E : (WriteTransfer.max_bytes_to_send w >? 0) = true) by lia.
  simpl; unfold_methods; cbn; rewrite E; reflexivity.
Qed.

Lemma send_loop_step fuel x m w h :
  Transfer.variant x = IsWrite w ->
  Manager.write_stream m = Some h ->
  0 < WriteTransfer.max_bytes_to_send w ->
  let c := next_chunk_of (Transfer.id x) (Transfer.data x) w in
  send_loop (S fuel) (x, m) =
    send_loop fuel
      (Transfer.with_history (Transfer.history x ++ [Sent c])
         (Transfer.with_variant (IsWrite (advance (len (Chunk.get_data c)) w))
            x), m).
Proof.
  intros Hv Hs Hb c.
  assert (E : (WriteTransfer.max_bytes_to_send w >? 0) = true) by lia.
  cbn [send_loop]. unfold bind at 1. unfold write_get at 1.
  unfold bind at 1. unfold self_get at 1, gets at 1. cbn [fst snd].
  rewrite Hv. unfold ret at 1. rewrite E.
  unfold bind at 1. rewrite (next_chunk_run x m w Hv). fold c.
  destruct x as [i s d dn tm hs v], m as [rt wt rs ws inv q sl nt].
  simpl in *. subst.
  unfold write_set, send_chunk, manager_send_chunk, note, self_get, self_set,
    in_manager, direction, bind, gets, modify, ret. cbn.
  reflexivity.
Qed.

Lemma send_loop_stream_closed fuel x m w :
  Transfer.variant x = IsWrite w ->
  Manager.write_stream m = None ->
  0 < WriteTransfer.max_bytes_to_send w ->
  let c := next_chunk_of (Transfer.id x) (Transfer.data x) w in
  send_loop (S fuel) (x, m) =
    (Raise AssertionError,
     (Transfer.with_variant (IsWrite (advance (len (Chunk.get_data c)) w)) x,
      m)).
Proof.
  intros Hv Hs Hb c.
  assert (E : (WriteTransfer.max_bytes_to_send w >? 0) = true) by lia.
  cbn [send_loop]. unfold bind at 1. unfold write_get at 1.
  unfold bind at 1. unfold self_get at 1, gets at 1. cbn [fst snd].
  rewrite Hv. unfold ret at 1. rewrite E.
  unfold bind at 1. rewrite (next_chunk_run x m w Hv). fold c.
  destruct x as [i s d dn tm hs v], m as [rt wt rs ws inv q sl nt].
  simpl in *. subst.
  unfold write_set, send_chunk, manager_send_chunk, note, self_get, self_set,
    in_manager, direction, bind, gets, modify, ret, raise. cbn.
  reflexivity.
Qed.





Lemma handle_chunk_write_in_range fuel self x m w chunk :
  Transfer.variant x = IsWrite w ->
  Chunk.get_offset chunk <= len (Transfer.data x) ->
  handle_chunk fuel self chunk (x, m) =
    (send_loop fuel >> timer_start self)
      (Transfer.with_variant
         (IsWrite (take_parameters chunk (len (Transfer.data x)) w))
         (Transfer.with_history (Transfer.history x ++ [Handled chunk])
            (Transfer.with_response_timer None x)),
       timer_stopped x m).
Proof.
  intros Hv Ho.
  assert (E : (Chunk.get_offset chunk >? len (Transfer.data x)) = false) by lia.
  destruct x as [i s d dn tm hs v], m as [rt wt rs ws inv q sl nt].
  simpl in *. subst.
  unfold handle_chunk, write_handle_chunk, timer_stopped, without_task,
    take_parameters.
  unfold timer_stop, cancel, unschedule, note, write_get, write_set, self_get,
    self_set, in_manager.
  unfold bind at 1. unfold modify at 1. cbn [fst snd].
  destruct tm, (Chunk.max_chunk_size_bytes chunk),
    (Chunk.min_delay_microseconds chunk); cbn; rewrite E; reflexivity.
Qed.


(** ** Timeouts of a read transfer *)

Lemma timer_run_retry self x m r h :
  Transfer.variant x = IsRead r ->
  Manager.read_stream m = Some h ->
  ReadTransfer.chunk_timeout_count r + 1 <= ReadTransfer.max_retries r ->
  timer_run self (x, m) =
    (Ret tt,
     (Transfer.mk (Transfer.id x) (Transfer.status x) (Transfer.data x)
        (Transfer.done x) None
        (Transfer.history x ++ [Sent (parameters_chunk (Transfer.id x) r)])
        (IsRead (ReadTransfer.with_pending_bytes
                   (ReadTransfer.max_bytes_to_receive r)
                   (ReadTransfer.with_chunk_timeout_count
                      (ReadTransfer.chunk_timeout_count r + 1) r))),
      Manager.with_next_task (S (Manager.next_task m))
        (Manager.with_sleeping
           (Manager.sleeping (timer_stopped x m)
              ++ [(Manager.next_task m, self)]) m))).
Proof.
  intros Hv Hs Hle.
  assert (E : (ReadTransfer.chunk_timeout_count r + 1
               >? ReadTransfer.max_retries r) = false) by lia.
  destruct x as [i s d dn tm hs v], m as [rt wt rs ws inv q sl nt].
  simpl in *. subst.
  unfold timer_run, timer_callback, on_timeout. unfold_methods. cbn.
  rewrite E. cbn. unfold parameters_chunk, truthy, timer_stopped, without_task. cbn.
  destruct (ReadTransfer.chunk_delay_us r) as [v|]; [destruct (v =? 0)|];
    destruct tm; reflexivity.
Qed.

Lemma timer_run_give_up self x m r transfers' :
  Transfer.variant x = IsRead r ->
  ReadTransfer.chunk_timeout_count r + 1 > ReadTransfer.max_retries r ->
  dict_del (Transfer.id x) (Manager.read_transfers m) = Some transfers' ->
  timer_run self (x, m) =
    (Ret tt,
     (Transfer.mk (Transfer.id x) DEADLINE_EXCEEDED (Transfer.data x)
        true None (Transfer.history x ++ [DoneSet])
        (IsRead (ReadTransfer.with_chunk_timeout_count
                   (ReadTransfer.chunk_timeout_count r + 1) r)),
      Manager.with_transfers Reading transfers' (timer_stopped x m))).
Proof.
  intros Hv Hgt Hd.
  assert (E : (ReadTransfer.chunk_timeout_count r + 1
               >? ReadTransfer.max_retries r) = true) by lia.
  destruct x as [i s d dn tm hs v], m as [rt wt rs ws inv q sl nt].
  simpl in *. subst.
  unfold timer_run, timer_callback, on_timeout. unfold_methods. cbn.
  rewrite E. unfold timer_stopped, without_task.
  destruct tm; cbn; rewrite Hd; reflexivity.
Qed.

(** ** Methods on the heap *)

Lemma on_run {A} (r : ref) (c : Method A) (w : World) x res x' m' :
  heap w !! r = Some x ->
  c (x, manager w) = (res, (x', m')) ->
  on r c w = (res, mkWorld (<[r := x']> (heap w)) m').
Proof. intros Hx Hc. unfold on. rewrite Hx, Hc. reflexivity. Qed.

Lemma owner_last (k : nat) (r : ref) (l : list (nat * ref)) :
  Forall (fun kr => fst kr ≠ k) l -> owner k (l ++ [(k, r)]) = Some r.
Proof.
  induction l as [|[k' r'] l IH]; intros H; simpl.
  - rewrite Nat.eqb_refl. reflexivity.
  - inversion H as [|? ? Hk Hl]; subst. simpl in Hk.
    destruct (Nat.eqb_spec k' k); [contradiction|]. apply IH, Hl.
Qed.

Lemma filter_other_tasks (k : nat) (l : list (nat * ref)) :
  Forall (fun kr => fst kr ≠ k) l ->
  filter (fun kr => fst kr ≠ k) l = l.
Proof.
  induction l as [|kr l IH]; intros H; [reflexivity|].
  inversion H as [|? ? Hk Hl]; subst.
  rewrite filter_cons_True by exact Hk. f_equal. apply IH, Hl.
Qed.

Lemma filter_last_task (k : nat) (r : ref) (l : list (nat * ref)) :
  Forall (fun kr => fst kr ≠ k) l ->
  filter (fun kr => fst kr ≠ k) (l ++ [(k, r)]) = l.
Proof.
  intros H. rewrite filter_app, (filter_other_tasks k l H).
  rewrite filter_cons_False; [apply app_nil_r|]. simpl. intros Hne. congruence.
Qed.

Lemma tasks_named_other (m : Manager.t) (k : nat) :
  tasks_named m -> (Manager.next_task m <= k)%nat ->
  Forall (fun kr => fst kr ≠ k) (Manager.sleeping m).
Proof.
  unfold tasks_named. intros H Hk.
  eapply Forall_impl; [exact H|]. simpl. intros kr Hlt. lia.
Qed.

Lemma timer_wakes_run (k : nat) (r : ref) (w : World) x res x' m' :
  owner k (Manager.sleeping (manager w)) = Some r ->
  heap w !! r = Some x ->
  timer_run r (x, without_task k (manager w)) = (res, (x', m')) ->
  timer_wakes k w = (res, mkWorld (<[r := x']> (heap w)) m').
Proof.
  intros Ho Hx Hc. unfold timer_wakes, in_world, unschedule.
  unfold bind at 1. unfold gets at 1. cbn [fst snd heap manager].
  rewrite Ho. unfold bind at 1. unfold modify at 1.
  cbn [fst snd heap manager].
  apply (on_run r (timer_run r) (mkWorld (heap w) _) x res x' m' Hx Hc).
Qed.

Lemma run_app fuel (evs1 evs2 : list Event) (w : World) :
  run fuel (evs1 ++ evs2) w = run fuel evs2 (run fuel evs1 w).
Proof. unfold run. apply fold_left_app. Qed.

Lemma timeouts_succ (k j : nat) :
  timeouts k (S j) = timeouts k j ++ [TimerWakes (k + j)].
Proof. unfold timeouts. rewrite seq_S, map_app. reflexivity. Qed.

Lemma begin_read_run (w : World) (r : ref) x rd h :
  heap w !! r = Some x ->
  Transfer.variant x = IsRead rd ->
  ReadTransfer.chunk_timeout_count rd = 0 ->
  Transfer.response_timer x = None ->
  Manager.read_stream (manager w) = Some h ->
  on r (begin r) w =
    (Ret tt,
     mkWorld (<[r := retrying x rd (Manager.next_task (manager w)) 0]> (heap w))
       (waiting (manager w) r 0)).
Proof.
  intros Hx Hv Hc Ht Hs.
  apply on_run with (x := x); [exact Hx|].
  unfold begin, read_begin. unfold bind at 1. unfold self_get at 1, gets at 1.
  cbn [fst snd]. rewrite Hv.
  rewrite (send_transfer_parameters_run r x (manager w) rd h Hv Hs).
  rewrite Ht. unfold retrying, waiting. rewrite Nat.add_0_r.
  do 3 f_equal. cbn [repeat]. do 2 f_equal.
  destruct rd; cbn in *; subst. reflexivity.
Qed.

Lemma retry_run fuel (w : World) (r : ref) x rd h (j : nat) :
  heap w !! r = Some x ->
  Transfer.variant x = IsRead rd ->
  Z.of_nat j + 1 <= ReadTransfer.max_retries rd ->
  Manager.read_stream (manager w) = Some h ->
  tasks_named (manager w) ->
  let k := Manager.next_task (manager w) in
  step fuel (TimerWakes (k + j))
    (mkWorld (<[r := retrying x rd k j]> (heap w)) (waiting (manager w) r j)) =
    (Ret tt,
     mkWorld (<[r := retrying x rd k (S j)]> (heap w))
       (waiting (manager w) r (S j))).
Proof.
  intros Hx Hv Hle Hs Hn k.
  assert (Hr : (r < length (heap w))%nat) by (eapply lookup_lt_Some; exact Hx).
  assert (Hother : Forall (fun kr => fst kr ≠ (k + j)%nat)
                     (Manager.sleeping (manager w)))
    by (apply tasks_named_other; [exact Hn|unfold k; lia]).
  assert (Hother0 : Forall (fun kr => fst kr ≠ k) (Manager.sleeping (manager w)))
    by (apply tasks_named_other; [exact Hn|unfold k; lia]).
  cbn [step].
  set (xj := retrying x rd k j).
  set (rdj := ReadTransfer.with_pending_bytes
                (ReadTransfer.max_bytes_to_receive rd)
                (ReadTransfer.with_chunk_timeout_count (Z.of_nat j) rd)).
  assert (Hvj : Transfer.variant xj = IsRead rdj) by reflexivity.
  etransitivity.
  { eapply timer_wakes_run with (r := r) (x := xj).
    - cbn [manager]. unfold waiting. destruct (manager w); cbn in *.
      apply owner_last. exact Hother.
    - cbn [heap]. apply list_lookup_insert_eq. exact Hr.
    - cbn [manager].
      apply (timer_run_retry r xj _ rdj h Hvj).
      + unfold without_task, waiting. destruct (manager w); exact Hs.
      + unfold rdj. destruct rd; cbn in *. lia. }
  cbn [heap]. rewrite list_insert_insert_eq. f_equal. f_equal.
  - f_equal. unfold xj, retrying.
    cbn [Transfer.id Transfer.status Transfer.data Transfer.done
         Transfer.history].
    f_equal.
    + rewrite <- app_assoc. f_equal.
      change (parameters_chunk (Transfer.id x) rdj)
        with (parameters_chunk (Transfer.id x) rd).
      rewrite <- repeat_cons. reflexivity.
    + f_equal. unfold rdj. clear. destruct rd.
      unfold ReadTransfer.with_pending_bytes,
        ReadTransfer.with_chunk_timeout_count; cbn.
      f_equal. lia.
  - unfold waiting, timer_stopped, without_task, xj, retrying, k.
    destruct (manager w) as [rt wt rs ws inv q sl nt]; cbn in *.
    rewrite (filter_last_task _ _ _ Hother).
    unfold Manager.with_next_task, Manager.with_sleeping.
    destruct j; cbn;
      [rewrite (filter_other_tasks _ _ Hother0)|];
      repeat f_equal; clear; lia.
Qed.

Lemma give_up_run fuel (w : World) (r : ref) x rd transfers' (n : nat) :
  heap w !! r = Some x ->
  Transfer.variant x = IsRead rd ->
  ReadTransfer.max_retries rd = Z.of_nat n ->
  dict_del (Transfer.id x) (Manager.read_transfers (manager w))
    = Some transfers' ->
  tasks_named (manager w) ->
  let k := Manager.next_task (manager w) in
  step fuel (TimerWakes (k + n))
    (mkWorld (<[r := retrying x rd k n]> (heap w)) (waiting (manager w) r n)) =
    (Ret tt,
     mkWorld (<[r := gave_up x rd n]> (heap w))
       (left_behind (manager w) transfers' n)).
Proof.
  intros Hx Hv Hmax Hdel Hn k.
  assert (Hr : (r < length (heap w))%nat) by (eapply lookup_lt_Some; exact Hx).
  assert (Hother : Forall (fun kr => fst kr ≠ (k + n)%nat)
                     (Manager.sleeping (manager w)))
    by (apply tasks_named_other; [exact Hn|unfold k; lia]).
  assert (Hother0 : Forall (fun kr => fst kr ≠ k) (Manager.sleeping (manager w)))
    by (apply tasks_named_other; [exact Hn|unfold k; lia]).
  cbn [step].
  set (xn := retrying x rd k n).
  set (rdn := ReadTransfer.with_pending_bytes
                (ReadTransfer.max_bytes_to_receive rd)
                (ReadTransfer.with_chunk_timeout_count (Z.of_nat n) rd)).
  assert (Hvn : Transfer.variant xn = IsRead rdn) by reflexivity.
  etransitivity.
  { eapply timer_wakes_run with (r := r) (x := xn).
    - cbn [manager]. unfold waiting. destruct (manager w); cbn in *.
      apply owner_last. exact Hother.
    - cbn [heap]. apply list_lookup_insert_eq. exact Hr.
    - cbn [manager].
      apply (timer_run_give_up r xn _ rdn transfers' Hvn).
      + unfold rdn. destruct rd; cbn in *. lia.
      + unfold without_task, waiting. destruct (manager w); exact Hdel. }
  cbn [heap]. rewrite list_insert_insert_eq. f_equal. f_equal.
  - f_equal. unfold xn, retrying, gave_up.
    cbn [Transfer.id Transfer.status Transfer.data Transfer.done
         Transfer.history].
    f_equal.
    + rewrite <- app_assoc. reflexivity.
    + f_equal. unfold rdn. clear. destruct rd.
      unfold ReadTransfer.with_pending_bytes,
        ReadTransfer.with_chunk_timeout_count; cbn.
      f_equal. lia.
  - unfold left_behind, waiting, timer_stopped, without_task, xn, retrying, k.
    destruct (manager w) as [rt wt rs ws inv q sl nt]; cbn in *.
    unfold Manager.with_next_task, Manager.with_sleeping,
      Manager.with_transfers.
    rewrite (filter_last_task _ _ _ Hother).
    destruct n; cbn;
      [rewrite (filter_other_tasks _ _ Hother0)|];
      reflexivity.
Qed.

Lemma retries_run fuel (w : World) (r : ref) x rd h (n j : nat) :
  heap w !! r = Some x ->
  Transfer.variant x = IsRead rd ->
  Transfer.response_timer x = None ->
  ReadTransfer.chunk_timeout_count rd = 0 ->
  ReadTransfer.max_retries rd = Z.of_nat n ->
  Manager.read_stream (manager w) = Some h ->
  tasks_named (manager w) ->
  (j <= n)%nat ->
  let k := Manager.next_task (manager w) in
  run fuel (timeouts k j) (snd (on r (begin r) w)) =
    mkWorld (<[r := retrying x rd k j]> (heap w)) (waiting (manager w) r j).
Proof.
  intros Hx Hv Ht Hc Hmax Hs Hn Hj k.
  induction j as [|j IH].
  - rewrite (begin_read_run w r x rd h Hx Hv Hc Ht Hs). reflexivity.
  - rewrite timeouts_succ, run_app, IH by lia.
    cbn [run fold_left].
    unfold k. rewrite (retry_run fuel w r x rd h j Hx Hv) by (assumption || lia).
    reflexivity.
Qed.

Lemma sent_app (h1 h2 : list Happening) : sent (h1 ++ h2) = sent h1 ++ sent h2.
Proof.
  induction h1 as [|[c|c|] h1 IH]; simpl; [reflexivity| |exact IH|exact IH].
  rewrite IH. reflexivity.
Qed.

Lemma sent_repeat (c : Chunk.t) (n : nat) :
  sent (repeat (Sent c) n) = repeat c n.
Proof. induction n as [|n IH]; simpl; [reflexivity|]. rewrite IH. reflexivity. Qed.

(** C3: a registered read transfer with [max_retries = n] whose server
    sends nothing.  After [begin] and [j <= n] timeouts it is not done,
    has sent [j + 1] identical parameters chunks and waits for a timer;
    the timeout after that finishes it with DEADLINE_EXCEEDED, with
    [n + 1] parameters chunks sent in all, no timer of its own asleep,
    and [read] raising [Error(id, DEADLINE_EXCEEDED)]. *)
Theorem read_gives_up_after_max_retries fuel (w : World) (r : ref) x rd h
    (n : nat) :
  heap w !! r = Some x ->
  Transfer.variant x = IsRead rd ->
  Transfer.done x = false ->
  Transfer.response_timer x = None ->
  ReadTransfer.chunk_timeout_count rd = 0 ->
  ReadTransfer.max_retries rd = Z.of_nat n ->
  Manager.read_stream (manager w) = Some h ->
  registered x (manager w) = true ->
  tasks_named (manager w) ->
  timer_asleep r (manager w) = false ->
  let k := Manager.next_task (manager w) in
  let begun := snd (on r (begin r) w) in
  let parameters := parameters_chunk (Transfer.id x) rd in
  (forall j, (j <= n)%nat ->
     let wj := run fuel (timeouts k j) begun in
     exists xj,
       heap wj !! r = Some xj /\
       Transfer.done xj = false /\
       sent (Transfer.history xj) =
         sent (Transfer.history x) ++ repeat parameters (S j) /\
       timer_asleep r (manager wj) = true) /\
  (let we := run fuel (timeouts k (S n)) begun in
   exists xe,
     heap we !! r = Some xe /\
     Transfer.done xe = true /\
     Transfer.status xe = DEADLINE_EXCEEDED /\
     Transfer.history xe =
       Transfer.history x ++ repeat (Sent parameters) (S n) ++ [DoneSet] /\
     timer_asleep r (manager we) = false /\
     fst (read_return r we) = Raise (Error (Transfer.id x) DEADLINE_EXCEEDED)).
Proof.
  intros Hx Hv Hdone Ht Hc Hmax Hs Hreg Hn Hasleep k begun parameters.
  assert (Hr : (r < length (heap w))%nat) by (eapply lookup_lt_Some; exact Hx).
  split.
  - intros j Hj wj. subst wj begun k.
    rewrite (retries_run fuel w r x rd h n j) by assumption.
    eexists. split; [apply list_lookup_insert_eq; exact Hr|].
    split; [exact Hdone|]. split.
    + cbn [retrying Transfer.history]. fold parameters.
      rewrite sent_app, sent_repeat. reflexivity.
    + unfold timer_asleep, waiting. destruct (manager w); cbn.
      rewrite existsb_app. cbn. rewrite Nat.eqb_refl.
      rewrite orb_true_r. reflexivity.
  - intros we. subst we begun k.
    unfold registered, direction in Hreg. rewrite Hv in Hreg.
    destruct (dict_mem_del _ _ Hreg) as [transfers' Hdel].
    rewrite timeouts_succ, run_app.
    rewrite (retries_run fuel w r x rd h n n) by (assumption || lia).
    cbn [run fold_left].
    rewrite (give_up_run fuel w r x rd transfers' n) by assumption.
    cbn [snd].
    exists (gave_up x rd n).
    split; [apply list_lookup_insert_eq; exact Hr|].
    split; [reflexivity|]. split; [reflexivity|]. split; [reflexivity|].
    split.
    + unfold timer_asleep, left_behind in *. destruct (manager w); exact Hasleep.
    + unfold read_return.
      erewrite on_run; [|apply list_lookup_insert_eq; exact Hr|reflexivity].
      reflexivity.
Qed.

(** ** Properties of every transfer on the heap, in every run *)

Lemma on_preserves {A} (P : Transfer.t -> Prop) (r : ref) (c : Method A) w :
  preserves P c -> Forall P (heap w) -> Forall P (heap (snd (on r c w))).
Proof.
  intros Hc Hall. unfold on.
  destruct (heap w !! r) as [x|] eqn:Hx; [|exact Hall].
  specialize (Hc x (manager w)).
  destruct (c (x, manager w)) as [res [x' m']]. cbn in *.
  apply Forall_insert; [exact Hall|].
  apply Hc. eapply Forall_lookup_1; eassumption.
Qed.

Lemma in_world_heap {A} (c : St Manager.t A) w :
  heap (snd (in_world c w)) = heap w.
Proof. unfold in_world. destruct (c (manager w)); reflexivity. Qed.

Lemma bind_preserves {A B} (I : World -> Prop) (c : St World A)
    (k : A -> St World B) :
  (forall w, I w -> I (snd (c w))) ->
  (forall a w, I w -> I (snd (k a w))) ->
  forall w, I w -> I (snd (bind c k w)).
Proof.
  intros Hc Hk w Hw. unfold bind. specialize (Hc w Hw).
  destruct (c w) as [[a|e|] w']; cbn in *; [apply Hk|..]; assumption.
Qed.

Lemma preserves_get {A} (P : Transfer.t -> Prop) (f : Transfer.t -> A) :
  preserves P (self_get f).
Proof. intros x m Hx. exact Hx. Qed.

Lemma in_world_preserves {A} (P : Transfer.t -> Prop) (c : St Manager.t A) w :
  heap_all P w -> heap_all P (snd (in_world c w)).
Proof. unfold heap_all. rewrite in_world_heap. exact id. Qed.

Lemma ret_preserves {A} (I : World -> Prop) (a : A) w :
  I w -> I (snd (ret a w)).
Proof. exact id. Qed.

Lemma start_transfer_preserves P d r w :
  heap_all P w -> heap_all P (snd (start_transfer d r w)).
Proof.
  unfold start_transfer. apply bind_preserves.
  - intros w'. apply on_preserves, preserves_get.
  - intros i w'. apply in_world_preserves.
Qed.

Lemma alloc_then_preserves {B} P x (k : ref -> St World B) :
  P x ->
  (forall r w, heap_all P w -> heap_all P (snd (k r w))) ->
  forall w, heap_all P w -> heap_all P (snd (bind (alloc x) k w)).
Proof.
  intros Hx Hk w Hw. unfold bind, alloc. apply Hk.
  unfold heap_all in *. cbn. apply Forall_app. split; [exact Hw|].
  constructor; [exact Hx|constructor].
Qed.

Lemma finish_all_preserves P d used items :
  (forall s, preserves P (finish s)) ->
  forall w, heap_all P w -> heap_all P (snd (finish_all d used items w)).
Proof.
  intros Hf. induction items as [|[k r] items IH]; intros w Hw; simpl.
  - apply bind_preserves; [apply in_world_preserves| |exact Hw].
    intros transfers w' Hw'.
    destruct (negb _); exact Hw'.
  - apply bind_preserves; [apply in_world_preserves| |exact Hw].
    intros transfers w' Hw'.
    destruct (negb _); [exact Hw'|].
    apply bind_preserves; [|intros _; exact IH|exact Hw'].
    intros w''. apply on_preserves, Hf.
Qed.

Lemma step_preserves P fuel ev :
  method_invariant P ->
  forall w, heap_all P w -> heap_all P (snd (step fuel ev w)).
Proof.
  intros [Hnr Hnw Hb Hh Hf Ht] w Hw.
  destruct ev as [i|i data| |chunk|chunk|k|s|s]; cbn [step].
  - apply bind_preserves; [|intros ? ? H; exact H|exact Hw].
    unfold read_call. intros w'.
    apply bind_preserves; [apply in_world_preserves|].
    intros transfers w'' Hw''.
    destruct (dict_mem i transfers); [exact Hw''|].
    revert w'' Hw''. apply alloc_then_preserves; [apply Hnr|].
    intros r. apply bind_preserves; [apply start_transfer_preserves|].
    intros ? ? H; exact H.
  - apply bind_preserves; [|intros ? ? H; exact H|exact Hw].
    unfold write_call. intros w'.
    apply bind_preserves; [apply in_world_preserves|].
    intros transfers w'' Hw''.
    destruct (dict_mem i transfers); [exact Hw''|].
    revert w'' Hw''. apply alloc_then_preserves; [apply Hnw|].
    intros r. apply bind_preserves; [apply start_transfer_preserves|].
    intros ? ? H; exact H.
  - unfold begin_next.
    apply bind_preserves; [apply in_world_preserves| |exact Hw].
    intros [|r queue] w' Hw'; [exact Hw'|].
    apply bind_preserves; [apply in_world_preserves| |exact Hw'].
    intros _ w''. apply on_preserves, Hb.
  - unfold manager_handle_chunk.
    apply bind_preserves; [apply in_world_preserves| |exact Hw].
    intros transfers w' Hw'.
    destruct (dict_get _ transfers) as [r|]; [|exact Hw'].
    destruct (Chunk.status chunk);
      apply on_preserves; [apply Hf|exact Hw'|apply Hh|exact Hw'].
  - unfold manager_handle_chunk.
    apply bind_preserves; [apply in_world_preserves| |exact Hw].
    intros transfers w' Hw'.
    destruct (dict_get _ transfers) as [r|]; [|exact Hw'].
    destruct (Chunk.status chunk);
      apply on_preserves; [apply Hf|exact Hw'|apply Hh|exact Hw'].
  - unfold timer_wakes.
    apply bind_preserves; [apply in_world_preserves| |exact Hw].
    intros sleeping w' Hw'.
    destruct (owner k sleeping) as [r|]; [|exact Hw'].
    apply bind_preserves; [apply in_world_preserves| |exact Hw'].
    intros _ w''. apply on_preserves, Ht.
  - unfold on_read_error, on_error.
    destruct (is_failed_precondition s); [apply in_world_preserves, Hw|].
    apply bind_preserves; [apply in_world_preserves| |exact Hw].
    intros _. apply bind_preserves; [apply in_world_preserves|].
    intros transfers. apply bind_preserves.
    + apply finish_all_preserves, Hf.
    + intros _. apply in_world_preserves.
  - unfold on_write_error, on_error.
    destruct (is_failed_precondition s); [apply in_world_preserves, Hw|].
    apply bind_preserves; [apply in_world_preserves| |exact Hw].
    intros _. apply bind_preserves; [apply in_world_preserves|].
    intros transfers. apply bind_preserves.
    + apply finish_all_preserves, Hf.
    + intros _. apply in_world_preserves.
Qed.

Lemma run_preserves P fuel evs :
  method_invariant P ->
  forall w, heap_all P w -> heap_all P (run fuel evs w).
Proof.
  intros HP. induction evs as [|ev evs IH]; intros w Hw; [exact Hw|].
  cbn [run fold_left]. apply IH. apply step_preserves; assumption.
Qed.

(** ** What the sending loop sends *)

Lemma next_chunk_of_contiguous i d w :
  0 <= WriteTransfer.offset w <= len d ->
  let c := next_chunk_of i d w in
  Chunk.status c = None /\
  Chunk.offset c = Some (WriteTransfer.offset w) /\
  0 <= len (Chunk.get_data c) /\
  WriteTransfer.offset w + len (Chunk.get_data c) <= len d /\
  (Chunk.remaining_bytes c = Some 0 ->
   WriteTransfer.offset w + len (Chunk.get_data c) = len d).
Proof.
  intros Ho c. unfold c, next_chunk_of.
  destruct (len d - WriteTransfer.offset w <=? WriteTransfer.max_chunk_size w);
    cbn.
  - rewrite len_slice_from by exact Ho.
    repeat split; try reflexivity; try lia.
  - pose proof (len_slice_le d (WriteTransfer.offset w)
                  (WriteTransfer.offset w + WriteTransfer.max_chunk_size w) Ho).
    pose proof (len_nonneg (slice d (WriteTransfer.offset w)
                  (WriteTransfer.offset w + WriteTransfer.max_chunk_size w))).
    repeat split; try reflexivity; try lia. discriminate.
Qed.

Lemma send_loop_summary fuel : forall x m w,
  Transfer.variant x = IsWrite w ->
  exists res cs w',
    send_loop fuel (x, m) =
      (res,
       (Transfer.with_history (Transfer.history x ++ map Sent cs)
          (Transfer.with_variant (IsWrite w') x), m)) /\
    (0 <= WriteTransfer.offset w <= len (Transfer.data x) ->
     contiguous (len (Transfer.data x)) (WriteTransfer.offset w)
       (map Sent cs)).
Proof.
  induction fuel as [|fuel IH]; intros x m w Hv.
  - exists (if WriteTransfer.max_bytes_to_send w >? 0 then Hang else Ret tt),
      [], w.
    split; [|intros _; exact I].
    destruct (Z_le_gt_dec (WriteTransfer.max_bytes_to_send w) 0) as [Hz|Hz].
    + rewrite (send_loop_end 0 x m w Hv Hz).
      replace (WriteTransfer.max_bytes_to_send w >? 0) with false by lia.
      destruct x; cbn in *; subst. rewrite app_nil_r. reflexivity.
    + rewrite (send_loop_out_of_fuel x m w Hv) by lia.
      replace (WriteTransfer.max_bytes_to_send w >? 0) with true by lia.
      destruct x; cbn in *; subst. rewrite app_nil_r. reflexivity.
  - destruct (Z_le_gt_dec (WriteTransfer.max_bytes_to_send w) 0) as [Hz|Hz].
    { exists (Ret tt), [], w. split; [|intros _; exact I].
      rewrite (send_loop_end _ x m w Hv Hz).
      destruct x; cbn in *; subst. rewrite app_nil_r. reflexivity. }
    set (c := next_chunk_of (Transfer.id x) (Transfer.data x) w).
    destruct (Manager.write_stream m) as [h|] eqn:Hs.
    + rewrite (send_loop_step fuel x m w h Hv Hs) by lia. fold c.
      set (x1 := Transfer.with_history _ _).
      destruct (IH x1 m (advance (len (Chunk.get_data c)) w))
        as (res & cs & w' & E & Hcs); [subst x1; destruct x; reflexivity|].
      exists res, (c :: cs), w'. split.
      * rewrite E. subst x1. destruct x; cbn.
        rewrite <- app_assoc. reflexivity.
      * intros Ho.
        destruct (next_chunk_of_contiguous (Transfer.id x) (Transfer.data x)
                    w Ho) as (Hst & Hoff & Hlen & Hend & Hmark).
        fold c in Hst, Hoff, Hlen, Hend, Hmark.
        cbn [map contiguous].
        split; [exact Hst|]. split; [congruence|].
        split; [exact Hend|]. split; [exact Hmark|].
        replace (Transfer.data x) with (Transfer.data x1)
          by (subst x1; destruct x; reflexivity).
        apply Hcs. subst x1. destruct x, w; cbn in *. clear IH E Hcs. lia.
    + exists (Raise AssertionError), [], (advance (len (Chunk.get_data c)) w).
      split; [|intros _; exact I].
      rewrite (send_loop_stream_closed fuel x m w Hv Hs) by lia. fold c.
      destruct x; cbn in *; subst. rewrite app_nil_r. reflexivity.
Qed.

Lemma timer_start_self self x m :
  exists tm,
    fst (snd (timer_start self (x, m))) = Transfer.with_response_timer tm x.
Proof.
  destruct x as [i s d dn tm hs v]. unfold_methods. cbn.
  destruct tm; cbn; eexists; reflexivity.
Qed.

Lemma handle_chunk_write_summary fuel self chunk x m w :
  Transfer.variant x = IsWrite w ->
  exists st dn tm rest w',
    fst (snd (handle_chunk fuel self chunk (x, m))) =
      Transfer.mk (Transfer.id x) st (Transfer.data x) dn tm
        (Transfer.history x ++ Handled chunk :: rest) (IsWrite w') /\
    (0 <= Chunk.get_offset chunk <= len (Transfer.data x) ->
     contiguous (len (Transfer.data x)) (Chunk.get_offset chunk) rest).
Proof.
  intros Hv.
  destruct (Z_le_gt_dec (Chunk.get_offset chunk) (len (Transfer.data x)))
    as [Hle|Hgt].
  - rewrite (handle_chunk_write_in_range fuel self x m w chunk Hv Hle).
    set (x1 := Transfer.with_variant _ _).
    set (w1 := take_parameters chunk (len (Transfer.data x)) w) in *.
    destruct (send_loop_summary fuel x1 (timer_stopped x m) w1)
      as (res & cs & w' & E & Hcs); [reflexivity|].
    unfold bind. rewrite E.
    set (x2 := Transfer.with_history _ _).
    assert (exists tm,
      fst (snd (match res with
                | Ret _ => timer_start self (x2, timer_stopped x m)
                | Raise e => (Raise e, (x2, timer_stopped x m))
                | Hang => (Hang, (x2, timer_stopped x m))
                end)) = Transfer.with_response_timer tm x2) as [tm Etm].
    { destruct res as [[]|e|].
      - apply timer_start_self.
      - exists (Transfer.response_timer x2). destruct x2; reflexivity.
      - exists (Transfer.response_timer x2). destruct x2; reflexivity. }
    rewrite Etm.
    exists (Transfer.status x), (Transfer.done x), tm, (map Sent cs), w'.
    split.
    + subst x2 x1. destruct x; cbn. rewrite <- app_assoc. reflexivity.
    + intros Ho. apply Hcs. exact Ho.
  - assert (E : (Chunk.get_offset chunk >? len (Transfer.data x)) = true)
      by lia.
    destruct x as [i s d dn tm hs v], m as [rt wt rs ws inv q sl nt].
    simpl in *. subst.
    unfold handle_chunk. unfold_methods. cbn.
    destruct tm; cbn; rewrite E; cbn;
      destruct ws; cbn;
      try destruct (dict_del i wt); cbn;
      repeat rewrite <- app_assoc; cbn;
      eexists _, _, _, _, _; (split; [reflexivity|intros; lia]).
Qed.

(** ** Method calls that take no chunk in *)

Ltac method_cases :=
  repeat (cbn;
          match goal with
          | |- context [match ?e with _ => _ end] => is_var e; destruct e
          | |- context [match ?e with _ => _ end] =>
              lazymatch e with
              | context [match _ with _ => _ end] => fail
              | _ => destruct e eqn:?
              end
          end).

Ltac quiet_rest :=
  cbn; repeat rewrite <- app_assoc; cbn;
  first
    [ eexists; split; [reflexivity|]; split; [reflexivity|];
      split; [reflexivity|]; split; [reflexivity|];
      first [ split; [reflexivity|];
              repeat (constructor;
                      [first [left; reflexivity | right; reflexivity]|]);
              constructor
            | eexists; split; reflexivity ]
    | exists []; rewrite app_nil_r;
      split; [reflexivity|]; split; [reflexivity|];
      split; [reflexivity|]; split; [reflexivity|];
      first [ split; [reflexivity|]; constructor
            | eexists; split; reflexivity ] ].

Lemma finish_quiet s x m : quiet_step x (fst (snd (finish s (x, m)))).
Proof.
  destruct x as [i st d dn tm hs [w|r]], m as [rt wt rs ws inv q sl nt];
    unfold quiet_step; unfold_methods; method_cases; quiet_rest.
Qed.

Lemma begin_quiet self x m : quiet_step x (fst (snd (begin self (x, m)))).
Proof.
  destruct x as [i st d dn tm hs [w|r]], m as [rt wt rs ws inv q sl nt];
    unfold quiet_step, begin; unfold_methods; method_cases; quiet_rest.
Qed.

Lemma timer_run_quiet self x m :
  quiet_step x (fst (snd (timer_run self (x, m)))).
Proof.
  destruct x as [i st d dn tm hs [w|r]], m as [rt wt rs ws inv q sl nt];
    unfold quiet_step, timer_run, timer_callback; unfold_methods;
    method_cases; quiet_rest.
Qed.

(** ** A read transfer handles a chunk *)

Lemma handle_chunk_read_summary fuel self chunk x m r :
  Transfer.variant x = IsRead r ->
  exists rest r',
    let x' := fst (snd (handle_chunk fuel self chunk (x, m))) in
    let taken := Chunk.get_offset chunk =? ReadTransfer.offset r in
    Transfer.history x' = Transfer.history x ++ Handled chunk :: rest /\
    handled rest = [] /\
    Transfer.variant x' = IsRead r' /\
    Transfer.data x' =
      (if taken then Transfer.data x ++ Chunk.get_data chunk
       else Transfer.data x) /\
    ReadTransfer.offset r' =
      (if taken then ReadTransfer.offset r + len (Chunk.get_data chunk)
       else ReadTransfer.offset r).
Proof.
  intros Hv.
  destruct x as [i st d dn tm hs v], m as [rt wt rs ws inv q sl nt].
  simpl in *. subst.
  unfold handle_chunk. unfold_methods. cbn.
  destruct (Chunk.get_offset chunk =? ReadTransfer.offset r) eqn:E;
    method_cases;
    try match goal with
        | H : negb _ = _ |- _ => rewrite E in H; discriminate
        end;
    cbn; repeat rewrite <- app_assoc; cbn;
    eexists _, _;
    (split; [reflexivity|]); (split; [reflexivity|]);
    (split; [reflexivity|]); split; reflexivity.
Qed.

(** ** The data of a read transfer *)

Lemma handled_app (h1 h2 : list Happening) :
  handled (h1 ++ h2) = handled h1 ++ handled h2.
Proof.
  induction h1 as [|[c|c|] h1 IH]; simpl; [reflexivity|exact IH| |exact IH].
  rewrite IH. reflexivity.
Qed.

Lemma payload_app (cs1 cs2 : list Chunk.t) :
  payload (cs1 ++ cs2) = payload cs1 ++ payload cs2.
Proof. unfold payload. rewrite map_app, concat_app. reflexivity. Qed.

Lemma in_order_snoc (cs : list Chunk.t) (c : Chunk.t) : forall expected,
  in_order expected (cs ++ [c]) =
    in_order expected cs ++
      (if Chunk.get_offset c =? expected + len (payload (in_order expected cs))
       then [c] else []).
Proof.
  induction cs as [|c0 cs IH]; intros expected; simpl.
  - unfold payload, len. simpl. rewrite Z.add_0_r.
    destruct (Chunk.get_offset c =? expected); reflexivity.
  - destruct (Chunk.get_offset c0 =? expected).
    + rewrite IH. simpl. f_equal.
      change (payload (c0 :: in_order (expected + len (Chunk.get_data c0)) cs))
        with (Chunk.get_data c0
                ++ payload (in_order (expected + len (Chunk.get_data c0)) cs)).
      rewrite len_app, Z.add_assoc. reflexivity.
    + apply IH.
Qed.

Lemma quiet_step_read_in_order x x' :
  quiet_step x x' -> read_in_order x -> read_in_order x'.
Proof.
  intros (rest & _ & Hd & Hh & Hrest & Hvar) Hx r' Hv'.
  destruct (Transfer.variant x) as [w|r] eqn:Hv.
  - destruct Hvar as [Hw _]. congruence.
  - destruct Hvar as (r'' & Hr'' & Ho).
    assert (r'' = r') by congruence. subst r''.
    destruct (Hx r Hv) as [Hdata Hoff].
    rewrite Hd, Hh, handled_app, Hrest, app_nil_r, Ho.
    split; assumption.
Qed.

Lemma read_in_order_invariant : method_invariant read_in_order.
Proof.
  constructor.
  - intros i a b c d r Hv. cbn in *. inversion Hv; subst. split; reflexivity.
  - intros i d r Hv. discriminate.
  - intros self x m. apply quiet_step_read_in_order, begin_quiet.
  - intros fuel self chunk x m Hx.
    destruct (Transfer.variant x) as [w|r] eqn:Hv.
    + destruct (handle_chunk_write_summary fuel self chunk x m w Hv)
        as (st & dn & tm & rest & w' & E & _).
      rewrite E. intros r' Hr'. discriminate.
    + destruct (handle_chunk_read_summary fuel self chunk x m r Hv)
        as (rest & r' & Hh & Hrest & Hv' & Hd & Ho).
      cbn zeta in *.
      intros r'' Hr''. rewrite Hv' in Hr''. inversion Hr''; subst r''.
      destruct (Hx r Hv) as [Hdata Hoff].
      rewrite Hh, Hd, Ho.
      change (Handled chunk :: rest) with ([Handled chunk] ++ rest).
      rewrite !handled_app, Hrest, app_nil_r. cbn [handled app].
      rewrite in_order_snoc, payload_app, <- Hdata, <- Hoff, Z.add_0_l.
      destruct (Chunk.get_offset chunk =? ReadTransfer.offset r).
      * unfold payload. cbn. rewrite app_nil_r, len_app.
        split; [reflexivity|lia].
      * unfold payload. cbn. rewrite app_nil_r.
        split; [reflexivity|exact Hoff].
  - intros s x m. apply quiet_step_read_in_order, finish_quiet.
  - intros self x m. apply quiet_step_read_in_order, timer_run_quiet.
Qed.

(** ** What a write transfer sends *)



Lemma bytes_sent_app (h1 h2 : list Happening) :
  bytes_sent (h1 ++ h2) = bytes_sent h1 + bytes_sent h2.
Proof. induction h1 as [|[c|c|] h1 IH]; simpl; lia. Qed.










(** ** A stream error *)

Lemma finish_run s x m transfers' :
  dict_del (Transfer.id x) (Manager.transfers (direction x) m)
    = Some transfers' ->
  finish s (x, m) =
    (Ret tt,
     (Transfer.mk (Transfer.id x) s (Transfer.data x) true None
        (Transfer.history x ++ [DoneSet]) (Transfer.variant x),
      Manager.with_transfers (direction x) transfers' (timer_stopped x m))).
Proof.
  intros Hd.
  destruct x as [i st d dn tm hs v], m as [rt wt rs ws inv q sl nt].
  unfold timer_stopped, without_task. unfold_methods. cbn in *.
  destruct tm, v; cbn in *; rewrite Hd; reflexivity.
Qed.

(** C4: the code at any registry that is not empty.  On a stream error
    other than FAILED_PRECONDITION the callback clears the stream and
    finishes the first transfer of the registry; that takes the transfer
    out of the dictionary the loop is iterating over, so the loop raises
    RuntimeError when it asks for the next item.  The other transfers
    are neither finished nor dropped, and the registry is left holding
    them. *)
Theorem stream_error_finishes_only_the_first_transfer
    d status (w : World) i (r : ref) rest x :
  is_failed_precondition status = false ->
  Manager.transfers d (manager w) = (i, r) :: rest ->
  heap w !! r = Some x ->
  Transfer.id x = i ->
  direction x = d ->
  exists w' x',
    on_error d status w = (Raise RuntimeError, w') /\
    Manager.stream d (manager w') = None /\
    Manager.transfers d (manager w') = rest /\
    heap w' !! r = Some x' /\
    Transfer.done x' = true /\
    Transfer.status x' = INTERNAL /\
    (forall r', r' ≠ r -> heap w' !! r' = heap w !! r').
Proof.
  intros Hfp Hreg Hx Hid Hdir.
  assert (Hr : (r < length (heap w))%nat) by (eapply lookup_lt_Some; exact Hx).
  set (m1 := Manager.with_stream d None (manager w)).
  assert (Hreg1 : Manager.transfers d m1 = (i, r) :: rest).
  { unfold m1. destruct d, (manager w); exact Hreg. }
  assert (Hdel : dict_del (Transfer.id x) (Manager.transfers (direction x) m1)
                 = Some rest).
  { rewrite Hdir, Hreg1, Hid. cbn. rewrite Z.eqb_refl. reflexivity. }
  pose proof (finish_run INTERNAL x m1 rest Hdel) as Hfin.
  set (x' := Transfer.mk _ _ _ _ _ _ _) in Hfin.
  set (m2 := Manager.with_transfers _ _ _) in Hfin.
  exists (mkWorld (<[r := x']> (heap w)) m2), x'.
  assert (Hreg2 : Manager.transfers d m2 = rest).
  { unfold m2, timer_stopped, without_task. rewrite Hdir.
    destruct d, (Transfer.response_timer x), m1; reflexivity. }
  split.
  - unfold on_error. rewrite Hfp.
    unfold bind at 1. unfold in_world at 1, modify at 1. cbn [fst snd heap manager].
    fold m1.
    unfold bind at 1. unfold in_world at 1, gets at 1. cbn [fst snd heap manager].
    rewrite Hreg1. unfold bind at 1.
    cbn [finish_all length].
    unfold bind at 1. unfold in_world at 1, gets at 1. cbn [fst snd heap manager].
    rewrite Hreg1. cbn [length]. rewrite Nat.eqb_refl. cbn [negb].
    unfold bind at 1.
    rewrite (on_run r (finish INTERNAL) (mkWorld (heap w) m1) x (Ret tt) x' m2
               Hx Hfin).
    cbn [heap].
    assert (Hstop : forall items,
      finish_all d (S (length rest)) items
        (mkWorld (<[r := x']> (heap w)) m2) =
      (Raise RuntimeError, mkWorld (<[r := x']> (heap w)) m2)).
    { intros items.
      assert (E : (length rest =? S (length rest))%nat = false)
        by (apply Nat.eqb_neq; lia).
      destruct items as [|[k t] items]; cbn [finish_all];
        unfold bind at 1; unfold in_world at 1, gets at 1;
        cbn [fst snd heap manager]; rewrite Hreg2, E; reflexivity. }
    rewrite Hstop. reflexivity.
  - cbn [heap manager].
    split.
    { unfold m2, timer_stopped, without_task, m1. rewrite Hdir.
      destruct d, (Transfer.response_timer x), (manager w); reflexivity. }
    split; [exact Hreg2|].
    split; [apply list_lookup_insert_eq; exact Hr|].
    split; [reflexivity|]. split; [reflexivity|].
    intros r' Hne. apply list_lookup_insert_ne. congruence.
Qed.

(** * The claims *)

(** C1, as stated: the data of a read that completed with OK is the
    concatenation of the data of every chunk it handled.  It is not: in
    [gap_run] the transfer handles [b"ab"], [b"xy"] and [b"c"], completes
    with OK, and its data is [b"abc"]. *)
Lemma read_data_is_not_every_chunk_handled :
  exists x,
    heap (run 0 gap_run World_new) !! 0%nat = Some x /\
    direction x = Reading /\
    Transfer.done x = true /\
    Transfer.status x = OK /\
    Transfer.data x = b_ "abc" /\
    payload (handled (Transfer.history x)) = b_ "abxyc" /\
    Transfer.data x <> payload (handled (Transfer.history x)).
Proof.
  eexists. split; [vm_compute; reflexivity|].
  repeat split; try reflexivity. vm_compute. discriminate.
Qed.

(** C1, amended: at every point of every run, so also when it has
    completed with OK, the data of a read transfer is the concatenation,
    in the order received, of the data of the chunks it handled whose
    offset was the offset expected when they were handled. *)
Theorem read_data_is_the_chunks_taken_in_order fuel evs (r : ref) x :
  heap (run fuel evs World_new) !! r = Some x ->
  direction x = Reading ->
  Transfer.data x = payload (in_order 0 (handled (Transfer.history x))).
Proof.
  intros Hx Hdir.
  assert (Hall : heap_all read_in_order (run fuel evs World_new)).
  { apply run_preserves; [exact read_in_order_invariant|constructor]. }
  pose proof (Forall_lookup_1 _ _ _ _ Hall Hx) as HP.
  unfold direction in Hdir.
  destruct (Transfer.variant x) as [w|rd] eqn:Hv; [discriminate|].
  exact (proj1 (HP rd Hv)).
Qed.

Lemma read_data_is_the_chunks_taken_in_order_witness :
  exists x,
    heap (run 0 gap_run World_new) !! 0%nat = Some x /\
    direction x = Reading /\
    Transfer.data x = payload (in_order 0 (handled (Transfer.history x))).
Proof.
  eexists. split; [vm_compute; reflexivity|]. split; [reflexivity|].
  eapply (read_data_is_the_chunks_taken_in_order 0 gap_run 0%nat);
    [vm_compute; reflexivity|reflexivity].
Defined.




Lemma stream_error_finishes_only_the_first_transfer_witness :
  exists w',
    on_read_error INTERNAL two_reads = (Raise RuntimeError, w') /\
    Manager.read_stream (manager w') = None /\
    Manager.read_transfers (manager w') = [(4, 1%nat)] /\
    Transfer.done <$> heap w' !! 0%nat = Some true /\
    Transfer.done <$> heap w' !! 1%nat = Some false.
Proof.
  destruct (stream_error_finishes_only_the_first_transfer
              Reading INTERNAL two_reads 3 0%nat [(4, 1%nat)] _
              eq_refl eq_refl eq_refl eq_refl eq_refl)
    as (w' & x' & E & Hs & Ht & Hx' & Hd & _ & Hrest).
  exists w'. split; [exact E|]. split; [exact Hs|]. split; [exact Ht|].
  split.
  - rewrite Hx'. cbn. rewrite Hd. reflexivity.
  - rewrite (Hrest 1%nat) by discriminate. reflexivity.
Defined.

(** C8: the code at the failing input.  In [late_timer_run] the read
    transfer has finished with OK, its [done] is set and it has left the
    registry, and the timer started by its first retry is still asleep.
    When that timer wakes the transfer sends a parameters chunk; three
    timeouts later [finish] runs a second time, sets [done] again,
    turns the status into DEADLINE_EXCEEDED and raises KeyError from
    the registry. *)
Theorem finished_read_still_has_a_timer :
  let w := run 0 late_timer_run World_new in
  (Transfer.done <$> heap w !! 0%nat = Some true /\
   Transfer.status <$> heap w !! 0%nat = Some OK /\
   Manager.read_transfers (manager w) = [] /\
   Manager.sleeping (manager w) = [(1%nat, 0%nat)] /\
   timer_asleep 0 (manager w) = true) /\
  (let w' := run 0 [TimerWakes 1] w in
   sent <$> (after_done <$> (Transfer.history <$> heap w' !! 0%nat)) =
     Some [Chunk.mk 3 (Some 2) None (Some 8192) (Some 1024) None None None]) /\
  (let w'' := run 0 [TimerWakes 1; TimerWakes 2; TimerWakes 3] w in
   fst (step 0 (TimerWakes 4) w'') = Raise KeyError /\
   let w''' := snd (step 0 (TimerWakes 4) w'') in
   done_sets <$> (Transfer.history <$> heap w''' !! 0%nat) = Some 2%nat /\
   Transfer.status <$> heap w''' !! 0%nat = Some DEADLINE_EXCEEDED).
Proof.
  split; [|split].
  - vm_compute. repeat split; reflexivity.
  - vm_compute. reflexivity.
  - vm_compute. repeat split; reflexivity.
Qed.

(** ** The theorems at concrete inputs *)

(** [read_3] and [write_7] are the transfers of [read_and_write]. *)
Lemma read_and_write_heap : heap read_and_write = [read_3; write_7].
Proof. vm_compute. reflexivity. Qed.

Lemma duplicate_id_is_rejected_witness :
  dict_mem 3 (Manager.read_transfers (manager read_and_write)) = true /\
  read_call 3 read_and_write = (Raise ValueError, read_and_write) /\
  dict_mem 7 (Manager.write_transfers (manager read_and_write)) = true /\
  write_call 7 (b_ "again") read_and_write
    = (Raise ValueError, read_and_write).
Proof.
  split; [reflexivity|]. split.
  - apply (proj1 (duplicate_id_is_rejected read_and_write 3)). reflexivity.
  - split; [reflexivity|].
    apply (proj2 (duplicate_id_is_rejected read_and_write 7)). reflexivity.
Defined.

Lemma parameters_resend_is_identical_witness :
  let chunk :=
    Chunk.mk 3 (Some 0) None (Some 8192) (Some 1024) None None None in
  exists s1 s2,
    send_transfer_parameters 0%nat (read_3, manager read_and_write)
      = (Ret tt, s1) /\
    send_transfer_parameters 0%nat s1 = (Ret tt, s2) /\
    Transfer.history (fst s1) = Transfer.history read_3 ++ [Sent chunk] /\
    Transfer.history (fst s2) = Transfer.history (fst s1) ++ [Sent chunk].
Proof.
  exact (parameters_resend_is_identical 0%nat read_3 (manager read_and_write)
           _ 0%nat eq_refl eq_refl).
Defined.

Lemma out_of_order_chunk_is_ignored_witness :
  Chunk.get_offset (data_chunk 3 5 (b_ "xy")) <> 0 /\
  exists x' m',
    handle_chunk 0 0%nat (data_chunk 3 5 (b_ "xy"))
      (read_3, manager read_and_write) = (Ret tt, (x', m')) /\
    Transfer.data x' = [] /\
    Transfer.done x' = false /\
    sent (Transfer.history x') =
      [Chunk.mk 3 (Some 0) None (Some 8192) (Some 1024) None None None;
       Chunk.mk 3 (Some 0) None (Some 8192) (Some 1024) None None None].
Proof.
  assert (Hne : Chunk.get_offset (data_chunk 3 5 (b_ "xy")) <> 0)
    by discriminate.
  split; [exact Hne|].
  destruct (out_of_order_chunk_is_ignored 0 0%nat read_3
              (manager read_and_write) _ 0%nat (data_chunk 3 5 (b_ "xy"))
              eq_refl eq_refl Hne)
    as (x' & m' & r' & E & Hd & _ & _ & Hdone & _ & _ & Hh & _).
  exists x', m'. split; [exact E|]. split; [exact Hd|].
  split; [exact Hdone|]. rewrite Hh. reflexivity.
Defined.

Lemma offset_past_the_end_is_out_of_range_witness :
  Chunk.get_offset (parameters_update 7 99 1 1) > len (Transfer.data write_7) /\
  exists x' m',
    handle_chunk 0 1%nat (parameters_update 7 99 1 1)
      (write_7, manager read_and_write) = (Ret tt, (x', m')) /\
    sent (Transfer.history x') =
      [Chunk.new 7; status_chunk 7 OUT_OF_RANGE] /\
    Transfer.status x' = OUT_OF_RANGE /\
    Transfer.done x' = true /\
    Manager.write_transfers m' = [].
Proof.
  assert (Hgt : Chunk.get_offset (parameters_update 7 99 1 1)
                > len (Transfer.data write_7)) by reflexivity.
  split; [exact Hgt|].
  destruct (offset_past_the_end_is_out_of_range 0 1%nat write_7
              (manager read_and_write) _ _ (parameters_update 7 99 1 1)
              eq_refl eq_refl eq_refl Hgt)
    as (x' & m' & t' & E & Hh & Hs & Hd & Hdel & Ht).
  exists x', m'. split; [exact E|]. split; [rewrite Hh; reflexivity|].
  split; [exact Hs|]. split; [exact Hd|].
  rewrite Ht. cbn in Hdel. congruence.
Defined.


Lemma read_gives_up_after_max_retries_witness :
  let we :=
    run 0 (timeouts 0 3)
      (snd (on 0%nat (begin 0%nat) read_with_two_retries)) in
  exists xe,
    heap we !! 0%nat = Some xe /\
    Transfer.done xe = true /\
    Transfer.status xe = DEADLINE_EXCEEDED /\
    sent (Transfer.history xe) =
      repeat (Chunk.mk 3 (Some 0) None (Some 8192) (Some 1024) None None None)
        3.
Proof.
  destruct (read_gives_up_after_max_retries 0 read_with_two_retries 0%nat
              (ReadTransfer_new 3 2 8192 1024 None) _ 0%nat 2%nat
              eq_refl eq_refl eq_refl eq_refl eq_refl eq_refl eq_refl eq_refl
              ltac:(constructor) eq_refl)
    as [_ (xe & Hx & Hd & Hs & Hh & _)].
  exists xe. split; [exact Hx|]. split; [exact Hd|]. split; [exact Hs|].
  rewrite Hh. reflexivity.
Defined.

(** * More of the code *)

(** ** finish and the callbacks of a transfer *)


Lemma done_sets_app (h1 h2 : list Happening) :
  done_sets (h1 ++ h2) = (done_sets h1 + done_sets h2)%nat.
Proof.
  induction h1 as [|[c|c|] h1 IH]; simpl; [reflexivity|exact IH|exact IH|].
  rewrite IH. reflexivity.
Qed.



(** X2: With the stream of its direction closed a transfer cannot send:
    [_send_error] raises AssertionError and does not reach [finish], and
    [begin] raises it and does not reach the start of the timer.  The
    transfer is left unfinished, with nothing sent and no timer
    started. *)
Theorem closed_stream_stops_send_error_and_begin self e x m :
  Manager.stream (direction x) m = None ->
  send_error e (x, m) = (Raise AssertionError, (x, m)) /\
  (let s' := snd (begin self (x, m)) in
   fst (begin self (x, m)) = Raise AssertionError /\
   Transfer.history (fst s') = Transfer.history x /\
   Transfer.done (fst s') = Transfer.done x /\
   Transfer.status (fst s') = Transfer.status x /\
   Transfer.response_timer (fst s') = Transfer.response_timer x /\
   snd s' = m).
Proof.
  intros Hs.
  destruct x as [i st d dn tm hs [w|r]], m as [rt wt rs ws inv q sl nt];
    unfold direction in Hs; cbn in Hs; subst;
    unfold begin; unfold_methods; cbn.
  - repeat split.
  - split; [reflexivity|].
    destruct (truthy (ReadTransfer.chunk_delay_us r)); cbn; repeat split.
Qed.

Lemma closed_stream_stops_send_error_and_begin_witness :
  let x := WriteTransfer_new 7 (b_ "hello") in
  Manager.stream (direction x) Manager.new = None /\
  send_error OUT_OF_RANGE (x, Manager.new)
    = (Raise AssertionError, (x, Manager.new)) /\
  fst (begin 0%nat (x, Manager.new)) = Raise AssertionError.
Proof.
  intros x. split; [reflexivity|].
  destruct (closed_stream_stops_send_error_and_begin 0%nat OUT_OF_RANGE x
              Manager.new eq_refl) as [H1 [H2 _]].
  split; [exact H1|exact H2].
Defined.

(** ** A read transfer takes a chunk *)



(** X4: A chunk of a read that is not the last: a read transfer, its stream
    open, is handed a chunk at the expected offset.  It appends the
    data, advances its offset, forgets the timeouts counted so far and
    restarts its timer.  Only when the chunk brings [pending_bytes] to
    exactly 0 does it send a parameters chunk, at the new offset and for
    a full window; a chunk longer than the window left leaves
    [pending_bytes] negative and no parameters chunk goes out. *)
Theorem read_chunk_in_order_is_appended fuel self x m r h chunk :
  Transfer.variant x = IsRead r ->
  Manager.read_stream m = Some h ->
  Chunk.get_offset chunk = ReadTransfer.offset r ->
  Chunk.remaining_bytes chunk <> Some 0 ->
  let n := len (Chunk.get_data chunk) in
  let exhausted := ReadTransfer.pending_bytes r - n =? 0 in
  exists x' m' r',
    handle_chunk fuel self chunk (x, m) = (Ret tt, (x', m')) /\
    Transfer.data x' = Transfer.data x ++ Chunk.get_data chunk /\
    Transfer.done x' = Transfer.done x /\
    Transfer.status x' = Transfer.status x /\
    Transfer.variant x' = IsRead r' /\
    ReadTransfer.offset r' = ReadTransfer.offset r + n /\
    ReadTransfer.chunk_timeout_count r' = 0 /\
    ReadTransfer.remaining_transfer_size r' =
      match Chunk.remaining_bytes chunk with
      | Some v => Some v
      | None => ReadTransfer.remaining_transfer_size r
      end /\
    ReadTransfer.pending_bytes r' =
      (if exhausted then ReadTransfer.max_bytes_to_receive r
       else ReadTransfer.pending_bytes r - n) /\
    Transfer.history x' =
      Transfer.history x ++
        Handled chunk ::
        (if exhausted then [Sent (parameters_chunk (Transfer.id x) r')]
         else []) /\
    Transfer.response_timer x' = Some (Manager.next_task m) /\
    Manager.sleeping m' =
      Manager.sleeping (timer_stopped x m) ++ [(Manager.next_task m, self)] /\
    Manager.read_transfers m' = Manager.read_transfers m.
Proof.
  intros Hv Hs Ho Hrem n exhausted. subst n exhausted.
  apply Z.eqb_eq in Ho.
  destruct x as [i s d dn tm hs v], m as [rt wt rs ws inv q sl nt].
  simpl in *. subst.
  destruct r as [cnt mr mb mcs dl rts off pb]. cbn in *.
  unfold handle_chunk, timer_stopped, without_task. unfold_methods. cbn.
  destruct tm; cbn; rewrite Ho; cbn;
    (destruct (Chunk.remaining_bytes chunk) as [v|] eqn:Er;
     [destruct (v =? 0) eqn:Ev;
      [apply Z.eqb_eq in Ev; subst v; contradiction|]|]);
    cbn;
    destruct (pb - len (Chunk.get_data chunk) =? 0);
    cbn;
    unfold truthy; cbn;
    (destruct dl as [v'|]; [destruct (v' =? 0) eqn:Ev'|]);
    cbn;
    (eexists _, _, _; split; [reflexivity|]);
    cbn; repeat rewrite <- app_assoc; cbn;
    repeat split;
    (unfold parameters_chunk, ReadTransfer.with_pending_bytes,
       ReadTransfer.with_remaining_transfer_size, ReadTransfer.with_offset,
       ReadTransfer.with_chunk_timeout_count; cbn; rewrite ?Ev'; cbn;
     reflexivity).
Qed.

Lemma read_chunk_in_order_is_appended_witness :
  exists x' m' r',
    handle_chunk 0 0%nat (data_chunk 3 0 (b_ "ab"))
      (read_3, manager read_and_write) = (Ret tt, (x', m')) /\
    Transfer.data x' = b_ "ab" /\
    Transfer.variant x' = IsRead r' /\
    ReadTransfer.offset r' = 2 /\
    ReadTransfer.pending_bytes r' = 8190 /\
    sent (Transfer.history x') = sent (Transfer.history read_3).
Proof.
  destruct (read_chunk_in_order_is_appended 0 0%nat read_3
              (manager read_and_write) _ _ (data_chunk 3 0 (b_ "ab"))
              eq_refl eq_refl eq_refl ltac:(discriminate))
    as (x' & m' & r' & E & Hd & _ & _ & Hv & Ho & _ & _ & Hp & Hh & _).
  exists x', m', r'. split; [exact E|]. split; [exact Hd|].
  split; [exact Hv|]. split; [exact Ho|]. split; [exact Hp|].
  rewrite Hh. reflexivity.
Defined.

(** ** A write transfer sends a window *)








(** ** The Manager dispatches a chunk *)

(** X6: A chunk whose transfer id is not in the registry of its stream is
    dropped: no exception leaves [_handle_chunk] and the world is as it
    was, whatever else the chunk carries. *)
Theorem chunk_for_unknown_transfer_is_dropped fuel d chunk (w : World) :
  dict_get (Chunk.transfer_id chunk) (Manager.transfers d (manager w)) = None ->
  manager_handle_chunk fuel d chunk w = (Ret tt, w).
Proof.
  intros H. unfold manager_handle_chunk, in_world, bind, gets. cbn.
  rewrite H. destruct w; reflexivity.
Qed.

Lemma chunk_for_unknown_transfer_is_dropped_witness :
  manager_handle_chunk 0 Reading (last_data_chunk 7 0 (b_ "ab")) read_and_write
    = (Ret tt, read_and_write) /\
  manager_handle_chunk 0 Writing (status_chunk 3 INTERNAL) read_and_write
    = (Ret tt, read_and_write).
Proof.
  split; apply chunk_for_unknown_transfer_is_dropped; reflexivity.
Defined.



(** ** Stream errors that do no harm *)

(** X8: FAILED_PRECONDITION on a stream: the callback opens the stream anew
    and touches nothing else: every transfer on the heap, both
    registries, the queue and the sleeping timers are as they were, and
    the stream of that direction is open afterwards, also when it was
    closed before. *)
Theorem failed_precondition_reopens_the_stream d (w : World) :
  exists w',
    on_error d FAILED_PRECONDITION w = (Ret tt, w') /\
    heap w' = heap w /\
    Manager.stream d (manager w')
      = Some (Manager.invocations (manager w)) /\
    Manager.invocations (manager w') = S (Manager.invocations (manager w)) /\
    Manager.read_transfers (manager w')
      = Manager.read_transfers (manager w) /\
    Manager.write_transfers (manager w')
      = Manager.write_transfers (manager w) /\
    Manager.new_transfer_queue (manager w')
      = Manager.new_transfer_queue (manager w) /\
    Manager.sleeping (manager w') = Manager.sleeping (manager w) /\
    Manager.next_task (manager w') = Manager.next_task (manager w) /\
    (forall d', d' <> d ->
       Manager.stream d' (manager w') = Manager.stream d' (manager w)).
Proof.
  destruct w as [hp m]. destruct m.
  eexists. split; [reflexivity|].
  destruct d; cbn; repeat split; intros [] H; try congruence; reflexivity.
Qed.

(** X9: Any other error on a stream with no transfer in flight: the callback
    returns, the stream of that direction is closed and its registry is
    empty; the heap and the other direction are as they were. *)
Theorem stream_error_with_no_transfers_closes_the_stream
    d status (w : World) :
  is_failed_precondition status = false ->
  Manager.transfers d (manager w) = [] ->
  on_error d status w =
    (Ret tt, mkWorld (heap w) (Manager.with_stream d None (manager w))).
Proof.
  intros Hfp Hreg. destruct w as [hp m]. destruct m.
  unfold on_error. rewrite Hfp.
  destruct d; cbn in *; subst; reflexivity.
Qed.

Lemma stream_error_with_no_transfers_closes_the_stream_witness :
  exists w',
    on_write_error INTERNAL (run 0 [CallRead 3] World_new) = (Ret tt, w') /\
    Manager.write_stream (manager w') = None /\
    Manager.read_transfers (manager w') = [(3, 0%nat)].
Proof.
  eexists. split.
  - apply (stream_error_with_no_transfers_closes_the_stream Writing INTERNAL
             (run 0 [CallRead 3] World_new)); reflexivity.
  - split; reflexivity.
Defined.

(** ** read and write with a new id *)

Lemma dict_set_new (k : Z) (v : ref) (d : dict) :
  dict_mem k d = false -> dict_set k v d = d ++ [(k, v)].
Proof.
  induction d as [|[k' v'] d IH]; simpl; [reflexivity|].
  destruct (k' =? k); simpl; [discriminate|].
  intros H. rewrite (IH H). reflexivity.
Qed.

Lemma dict_get_set (k : Z) (v : ref) (d : dict) :
  dict_get k (dict_set k v d) = Some v.
Proof.
  induction d as [|[k' v'] d IH]; simpl.
  - rewrite Z.eqb_refl. reflexivity.
  - destruct (k' =? k) eqn:E; simpl.
    + rewrite Z.eqb_refl. reflexivity.
    + rewrite E. exact IH.
Qed.

Lemma start_new_transfer d x (w : World) :
  bind (alloc x) (start_transfer d) w =
    (Ret tt,
     mkWorld (heap w ++ [x])
       (started d (Transfer.id x) (length (heap w)) (manager w))).
Proof.
  unfold bind at 1. unfold alloc. unfold start_transfer.
  unfold bind at 1.
  assert (Hx : (heap w ++ [x]) !! length (heap w) = Some x)
    by apply list_lookup_middle, eq_refl.
  rewrite (on_run (length (heap w)) (self_get Transfer.id)
             (mkWorld (heap w ++ [x]) (manager w)) x (Ret (Transfer.id x)) x
             (manager w) Hx eq_refl).
  cbn [heap manager]. rewrite list_insert_id by exact Hx.
  unfold in_world, started. destruct w as [hp m], m, d; cbn.
  all: match goal with
       | |- context [match ?s with Some _ => _ | None => _ end] => destruct s
       end; reflexivity.
Qed.

(** X10: [read] and [write] with an id that is not in the registry of their
    direction: a new transfer is made with the defaults of its class (a
    read with [max_retries = 3], a window of 8192 bytes and chunks of
    1024), registered under its id at the end of the registry, and
    queued for [begin]; the stream is opened only when it is not open
    yet.  Nothing is sent before [begin], and the registry of the other
    direction plays no part: an id in use for reading can be taken for
    writing and the other way round. *)
Theorem call_with_a_new_id_registers_a_transfer (w : World) (i : Z) :
  let r := length (heap w) in
  (dict_mem i (Manager.read_transfers (manager w)) = false ->
   read_call i w =
     (Ret r,
      mkWorld (heap w ++ [ReadTransfer_new i 3 8192 1024 None])
        (started Reading i r (manager w))) /\
   Manager.read_transfers (started Reading i r (manager w))
     = Manager.read_transfers (manager w) ++ [(i, r)]) /\
  (dict_mem i (Manager.write_transfers (manager w)) = false ->
   forall data,
     write_call i data w =
       (Ret r,
        mkWorld (heap w ++ [WriteTransfer_new i data])
          (started Writing i r (manager w))) /\
     Manager.write_transfers (started Writing i r (manager w))
       = Manager.write_transfers (manager w) ++ [(i, r)]).
Proof.
  intros r. split.
  - intros H. split.
    + unfold read_call. unfold bind at 1. unfold in_world at 1, gets at 1.
      cbn [fst snd]. rewrite world_eta, H.
      change (bind (alloc (ReadTransfer_new i 3 8192 1024 None))
                (fun transfer => start_transfer Reading transfer >> ret transfer)
                w = (Ret r,
                     mkWorld (heap w ++ [ReadTransfer_new i 3 8192 1024 None])
                       (started Reading i r (manager w)))).
      pose proof (start_new_transfer Reading
                    (ReadTransfer_new i 3 8192 1024 None) w) as E.
      unfold bind in *. unfold alloc in *.
      destruct (start_transfer Reading _ _) as [[[]|e|] w'];
        inversion E; subst; reflexivity.
    + unfold started. rewrite <- (dict_set_new i r _ H).
      destruct (manager w) as [rt wt rs ws inv q sl nt]; cbn.
      destruct rs; reflexivity.
  - intros H data. split.
    + unfold write_call. unfold bind at 1. unfold in_world at 1, gets at 1.
      cbn [fst snd]. rewrite world_eta, H.
      pose proof (start_new_transfer Writing (WriteTransfer_new i data) w) as E.
      unfold bind in *. unfold alloc in *.
      destruct (start_transfer Writing _ _) as [[[]|e|] w'];
        inversion E; subst; reflexivity.
    + unfold started. rewrite <- (dict_set_new i r _ H).
      destruct (manager w) as [rt wt rs ws inv q sl nt]; cbn.
      destruct ws; reflexivity.
Qed.

Lemma call_with_a_new_id_registers_a_transfer_witness :
  dict_mem 3 (Manager.write_transfers (manager read_and_write)) = false /\
  exists w',
    write_call 3 (b_ "x") read_and_write = (Ret 2%nat, w') /\
    Manager.write_transfers (manager w') = [(7, 1%nat); (3, 2%nat)] /\
    Manager.read_transfers (manager w') = [(3, 0%nat)] /\
    Manager.write_stream (manager w')
      = Manager.write_stream (manager read_and_write) /\
    Manager.new_transfer_queue (manager w') = [2%nat].
Proof.
  split; [vm_compute; reflexivity|].
  destruct (proj2 (call_with_a_new_id_registers_a_transfer read_and_write 3)
              ltac:(vm_compute; reflexivity) (b_ "x")) as [E _].
  eexists. split; [exact E|].
  split; [vm_compute; reflexivity|]. split; [vm_compute; reflexivity|].
  split; vm_compute; reflexivity.
Defined.

(** ** The timeout of a write transfer *)

Lemma write_begin_run self x m ws h :
  Transfer.variant x = IsWrite ws ->
  Transfer.response_timer x = None ->
  Manager.write_stream m = Some h ->
  begin self (x, m) =
    (Ret tt,
     (Transfer.mk (Transfer.id x) (Transfer.status x) (Transfer.data x)
        (Transfer.done x) (Some (Manager.next_task m))
        (Transfer.history x ++ [Sent (Chunk.new (Transfer.id x))])
        (IsWrite ws),
      Manager.with_next_task (S (Manager.next_task m))
        (Manager.with_sleeping
           (Manager.sleeping m ++ [(Manager.next_task m, self)]) m))).
Proof.
  intros Hv Ht Hs.
  destruct x as [i s d dn tm hs v], m as [rt wt rs wst inv q sl nt].
  cbn in *. subst. unfold begin. unfold_methods. reflexivity.
Qed.

Lemma timer_run_write self x m ws transfers' :
  Transfer.variant x = IsWrite ws ->
  dict_del (Transfer.id x) (Manager.write_transfers m) = Some transfers' ->
  timer_run self (x, m) =
    (Ret tt,
     (Transfer.mk (Transfer.id x) DEADLINE_EXCEEDED (Transfer.data x) true
        None (Transfer.history x ++ [DoneSet]) (IsWrite ws),
      Manager.with_transfers Writing transfers' (timer_stopped x m))).
Proof.
  intros Hv Hd.
  destruct x as [i s d dn tm hs v], m as [rt wt rs wst inv q sl nt].
  cbn in *. subst.
  unfold timer_run, timer_callback, timer_stopped, without_task.
  unfold_methods. cbn.
  destruct tm; cbn; rewrite Hd; reflexivity.
Qed.

(** X11: A write has no retries: a registered write transfer, its stream
    open, sends on [begin] the bare chunk [{id}] and starts its timer;
    when no parameters chunk arrives, the first timeout finishes it with
    DEADLINE_EXCEEDED.  Nothing more was sent, no timer of the transfer
    is left asleep and [write] raises [Error(id, DEADLINE_EXCEEDED)]. *)
Theorem write_gives_up_at_the_first_timeout fuel (w : World) (r : ref) x ws h :
  heap w !! r = Some x ->
  Transfer.variant x = IsWrite ws ->
  Transfer.response_timer x = None ->
  Manager.write_stream (manager w) = Some h ->
  registered x (manager w) = true ->
  tasks_named (manager w) ->
  timer_asleep r (manager w) = false ->
  let k := Manager.next_task (manager w) in
  let begun := snd (on r (begin r) w) in
  let we := run fuel [TimerWakes k] begun in
  (exists xb,
     heap begun !! r = Some xb /\
     Transfer.done xb = Transfer.done x /\
     Transfer.history xb =
       Transfer.history x ++ [Sent (Chunk.new (Transfer.id x))] /\
     timer_asleep r (manager begun) = true) /\
  (exists xe,
     heap we !! r = Some xe /\
     Transfer.done xe = true /\
     Transfer.status xe = DEADLINE_EXCEEDED /\
     Transfer.history xe =
       Transfer.history x ++ [Sent (Chunk.new (Transfer.id x)); DoneSet] /\
     timer_asleep r (manager we) = false /\
     fst (write_return r we)
       = Raise (Error (Transfer.id x) DEADLINE_EXCEEDED)).
Proof.
  intros Hx Hv Ht Hs Hreg Hn Hasleep k begun we.
  assert (Hr : (r < length (heap w))%nat) by (eapply lookup_lt_Some; exact Hx).
  assert (Hother : Forall (fun kr => fst kr ≠ k) (Manager.sleeping (manager w)))
    by (apply tasks_named_other; [exact Hn|unfold k; lia]).
  unfold registered, direction in Hreg. rewrite Hv in Hreg.
  destruct (dict_mem_del _ _ Hreg) as [transfers' Hdel].
  pose proof (write_begin_run r x (manager w) ws h Hv Ht Hs) as Hb.
  set (xb := Transfer.mk _ _ _ _ _ _ _) in Hb.
  set (mb := Manager.with_next_task _ _) in Hb.
  assert (Ebegun : begun = mkWorld (<[r := xb]> (heap w)) mb).
  { unfold begun. rewrite (on_run r (begin r) w x _ _ _ Hx Hb). reflexivity. }
  assert (Hsl : Manager.sleeping mb = Manager.sleeping (manager w) ++ [(k, r)])
    by (unfold mb; destruct (manager w); reflexivity).
  split.
  - exists xb. rewrite Ebegun. cbn [heap manager].
    split; [apply list_lookup_insert_eq; exact Hr|].
    split; [reflexivity|]. split; [reflexivity|].
    unfold timer_asleep. rewrite Hsl, existsb_app. cbn.
    rewrite Nat.eqb_refl, orb_true_r. reflexivity.
  - assert (Hdel' : dict_del (Transfer.id xb)
                      (Manager.write_transfers (without_task k mb))
                    = Some transfers').
    { unfold without_task, mb. destruct (manager w); exact Hdel. }
    pose proof (timer_run_write r xb (without_task k mb) ws transfers'
                  eq_refl Hdel') as Hrun.
    set (xe := Transfer.mk _ _ _ _ _ _ _) in Hrun.
    set (me := Manager.with_transfers _ _ _) in Hrun.
    assert (Ewe : we = mkWorld (<[r := xe]> (heap w)) me).
    { unfold we. rewrite Ebegun. cbn [run fold_left step].
      erewrite timer_wakes_run with (r := r) (x := xb).
      - cbn [snd heap]. rewrite list_insert_insert_eq. reflexivity.
      - cbn [manager]. rewrite Hsl. apply owner_last. exact Hother.
      - cbn [heap]. apply list_lookup_insert_eq. exact Hr.
      - exact Hrun. }
    exists xe. rewrite Ewe. cbn [heap manager].
    split; [apply list_lookup_insert_eq; exact Hr|].
    split; [reflexivity|]. split; [reflexivity|].
    split; [subst xe xb; cbn; rewrite <- app_assoc; reflexivity|].
    split.
    + unfold me, timer_stopped, without_task, xb. cbn.
      unfold timer_asleep in *. unfold mb, k.
      destruct (manager w) as [rt wt rs wst inv q sl nt]; cbn in *.
      rewrite (filter_last_task _ _ _ Hother).
      rewrite (filter_other_tasks _ _ Hother). exact Hasleep.
    + unfold write_return.
      erewrite on_run; [|apply list_lookup_insert_eq; exact Hr|reflexivity].
      reflexivity.
Qed.

Lemma write_gives_up_at_the_first_timeout_witness :
  let w := run 0 [CallWrite 7 (b_ "hello")] World_new in
  let we := run 0 [TimerWakes 0] (snd (on 0%nat (begin 0%nat) w)) in
  exists xe,
    heap we !! 0%nat = Some xe /\
    Transfer.done xe = true /\
    Transfer.status xe = DEADLINE_EXCEEDED /\
    sent (Transfer.history xe) = [Chunk.new 7].
Proof.
  intros w we.
  destruct (write_gives_up_at_the_first_timeout 0 w 0%nat
              (WriteTransfer_new 7 (b_ "hello")) _ _
              eq_refl eq_refl eq_refl eq_refl eq_refl
              ltac:(constructor) eq_refl)
    as [_ (xe & Hx & Hd & Hs & Hh & _)].
  exists xe. split; [exact Hx|]. split; [exact Hd|]. split; [exact Hs|].
  rewrite Hh. reflexivity.
Defined.

(** ** Invariants of every run *)

(** X12: The offset of a read transfer is the number of bytes it holds, at
    every point of every run. *)
Theorem read_offset_is_the_length_of_the_data fuel evs (r : ref) x rd :
  heap (run fuel evs World_new) !! r = Some x ->
  Transfer.variant x = IsRead rd ->
  ReadTransfer.offset rd = len (Transfer.data x).
Proof.
  intros Hx Hv.
  assert (Hall : heap_all read_in_order (run fuel evs World_new)).
  { apply run_preserves; [exact read_in_order_invariant|constructor]. }
  exact (proj2 (Forall_lookup_1 _ _ _ _ Hall Hx rd Hv)).
Qed.

Lemma read_offset_is_the_length_of_the_data_witness :
  exists x rd,
    heap (run 0 gap_run World_new) !! 0%nat = Some x /\
    Transfer.variant x = IsRead rd /\
    ReadTransfer.offset rd = len (Transfer.data x) /\
    len (Transfer.data x) = 3.
Proof.
  eexists _, _. split; [vm_compute; reflexivity|]. split; [reflexivity|].
  split; [|reflexivity].
  eapply (read_offset_is_the_length_of_the_data 0 gap_run 0%nat);
    [vm_compute; reflexivity|reflexivity].
Defined.

Ltac calm :=
  cbn; repeat rewrite done_sets_app; cbn;
  first [ left; repeat split; cbn; lia
        | right; repeat split; cbn; lia ].

Lemma finish_calm_or_finishing s x m :
  calm_or_finishing x (fst (snd (finish s (x, m)))).
Proof.
  destruct x as [i st d dn tm hs [w|r]], m as [rt wt rs ws inv q sl nt];
    unfold calm_or_finishing; unfold_methods; method_cases; calm.
Qed.

Lemma begin_calm_or_finishing self x m :
  calm_or_finishing x (fst (snd (begin self (x, m)))).
Proof.
  destruct x as [i st d dn tm hs [w|r]], m as [rt wt rs ws inv q sl nt];
    unfold calm_or_finishing, begin; unfold_methods; method_cases; calm.
Qed.

Lemma timer_run_calm_or_finishing self x m :
  calm_or_finishing x (fst (snd (timer_run self (x, m)))).
Proof.
  destruct x as [i st d dn tm hs [w|r]], m as [rt wt rs ws inv q sl nt];
    unfold calm_or_finishing, timer_run, timer_callback; unfold_methods;
    method_cases; calm.
Qed.

Lemma done_sets_sent (cs : list Chunk.t) : done_sets (map Sent cs) = 0%nat.
Proof. induction cs; [reflexivity|exact IHcs]. Qed.

Lemma handle_chunk_calm_or_finishing fuel self chunk x m :
  calm_or_finishing x (fst (snd (handle_chunk fuel self chunk (x, m)))).
Proof.
  destruct (Transfer.variant x) as [w|r] eqn:Hv.
  - destruct (Z_le_gt_dec (Chunk.get_offset chunk) (len (Transfer.data x)))
      as [Hle|Hgt].
    + rewrite (handle_chunk_write_in_range fuel self x m w chunk Hv Hle).
      set (x1 := Transfer.with_variant _ _).
      destruct (send_loop_summary fuel x1 (timer_stopped x m) _ eq_refl)
        as (res & cs & w' & E & _).
      unfold bind. rewrite E.
      set (x2 := Transfer.with_history _ _).
      assert (H2 : Transfer.done x2 = Transfer.done x /\
                   Transfer.status x2 = Transfer.status x /\
                   done_sets (Transfer.history x2)
                     = done_sets (Transfer.history x)).
      { subst x2 x1. destruct x; cbn.
        rewrite !done_sets_app, done_sets_sent. cbn. repeat split; lia. }
      left.
      destruct res as [[]|e|]; cbn [fst snd]; [|exact H2|exact H2].
      destruct (timer_start_self self x2 (timer_stopped x m)) as [tm ->].
      destruct x2; exact H2.
    + assert (E : (Chunk.get_offset chunk >? len (Transfer.data x)) = true)
        by lia.
      destruct x as [i s d dn tm hs v], m as [rt wt rs ws inv q sl nt].
      simpl in *. subst.
      unfold calm_or_finishing, handle_chunk. unfold_methods. cbn.
      destruct tm; cbn; rewrite E; method_cases; calm.
  - destruct x as [i s d dn tm hs v], m as [rt wt rs ws inv q sl nt].
    simpl in *. subst.
    unfold calm_or_finishing, handle_chunk. unfold_methods. cbn.
    method_cases; calm.
Qed.

Lemma calm_or_finishing_done_as_recorded x x' :
  calm_or_finishing x x' -> done_as_recorded x -> done_as_recorded x'.
Proof.
  unfold calm_or_finishing, done_as_recorded.
  intros [(Hd & Hs & Hn)|(Hd & Hn)] [Hx1 Hx2].
  - rewrite Hd, Hs, Hn. split; assumption.
  - rewrite Hd, Hn. split; [reflexivity|discriminate].
Qed.

Lemma done_as_recorded_invariant : method_invariant done_as_recorded.
Proof.
  constructor.
  - intros. split; [reflexivity|intros _; reflexivity].
  - intros. split; [reflexivity|intros _; reflexivity].
  - intros self x m.
    apply calm_or_finishing_done_as_recorded, begin_calm_or_finishing.
  - intros fuel self chunk x m.
    apply calm_or_finishing_done_as_recorded, handle_chunk_calm_or_finishing.
  - intros s x m.
    apply calm_or_finishing_done_as_recorded, finish_calm_or_finishing.
  - intros self x m.
    apply calm_or_finishing_done_as_recorded, timer_run_calm_or_finishing.
Qed.

(** X13: At every point of every run and for every transfer: [done] is set
    exactly when [done.set()] was called at least once, and a transfer
    whose [done] is unset has the status OK.  So a caller never sees a
    status other than OK on a transfer it is still waiting for, and the
    status only ever changes in a call that also sets [done]. *)
Theorem done_is_set_with_the_status fuel evs (r : ref) x :
  heap (run fuel evs World_new) !! r = Some x ->
  (Transfer.done x = true <-> (1 <= done_sets (Transfer.history x))%nat) /\
  (Transfer.done x = false -> Transfer.status x = OK).
Proof.
  intros Hx.
  assert (Hall : heap_all done_as_recorded (run fuel evs World_new)).
  { apply run_preserves; [exact done_as_recorded_invariant|constructor]. }
  destruct (Forall_lookup_1 _ _ _ _ Hall Hx) as [Hd Hs].
  split; [|exact Hs].
  rewrite Hd. destruct (done_sets (Transfer.history x)); cbn; split;
    try discriminate; try lia; reflexivity.
Qed.

Lemma done_is_set_with_the_status_witness :
  exists x,
    heap (run 9 rollback_run World_new) !! 0%nat = Some x /\
    Transfer.done x = true /\
    (1 <= done_sets (Transfer.history x))%nat.
Proof.
  eexists. split; [vm_compute; reflexivity|]. split; [reflexivity|].
  refine (proj1 (proj1 (done_is_set_with_the_status 9 rollback_run 0%nat _ _))
            _); [vm_compute; reflexivity|reflexivity].
Defined.

(** ** A write transfer sends nothing but its payload *)







(** ** The registries *)

Lemma dict_get_elem (k : Z) (v : ref) (d : dict) :
  dict_get k d = Some v -> (k, v) ∈ d.
Proof.
  induction d as [|[k' v'] d IH]; simpl; [discriminate|].
  destruct (Z.eqb_spec k' k) as [->|Hne].
  - intros [= ->]. left.
  - intros H. right. exact (IH H).
Qed.

Lemma dict_not_mem_keys (k : Z) (d : dict) :
  dict_mem k d = false -> k ∉ d.*1.
Proof.
  induction d as [|[k' v] d IH]; simpl; intros H Hin.
  - inversion Hin.
  - apply orb_false_iff in H as [Hk H].
    apply elem_of_cons in Hin as [->|Hin]; [|exact (IH H Hin)].
    rewrite Z.eqb_refl in Hk. discriminate.
Qed.

Lemma dict_del_elem (k : Z) (v : ref) (d : dict) :
  (k, v) ∈ d -> dict_del k d <> None.
Proof.
  induction d as [|[k' v'] d IH]; simpl; intros Hin.
  - inversion Hin.
  - destruct (Z.eqb_spec k' k) as [->|Hne]; [discriminate|].
    apply elem_of_cons in Hin as [[= -> ->]|Hin]; [contradiction|].
    destruct (dict_del k d); [discriminate|]. exact (IH Hin).
Qed.

Lemma dict_del_sub (k : Z) (d : dict) : forall d',
  dict_del k d = Some d' ->
  NoDup d.*1 ->
  NoDup d'.*1 /\ forall i r, (i, r) ∈ d' -> (i, r) ∈ d /\ i <> k.
Proof.
  induction d as [|[k' v] d IH]; simpl; intros d' E Hnd; [discriminate|].
  apply NoDup_cons in Hnd as [Hk Hnd].
  destruct (Z.eqb_spec k' k) as [->|Hne].
  - injection E as <-. split; [exact Hnd|].
    intros i r Hin. split; [right; exact Hin|].
    intros ->. apply Hk. apply list_elem_of_fmap. exists (k, r).
    split; [reflexivity|exact Hin].
  - destruct (dict_del k d) as [d''|] eqn:Ed; [|discriminate].
    injection E as <-.
    destruct (IH d'' eq_refl Hnd) as [Hnd' Hsub]. split.
    + cbn. apply NoDup_cons. split; [|exact Hnd'].
      intros Hin. apply Hk.
      apply list_elem_of_fmap in Hin as ([i r] & -> & Hin). cbn.
      apply list_elem_of_fmap. exists (i, r).
      split; [reflexivity|]. apply Hsub, Hin.
    + intros i r Hin. apply elem_of_cons in Hin as [[= -> ->]|Hin].
      * split; [left|exact Hne].
      * destruct (Hsub i r Hin). split; [right; assumption|assumption].
Qed.

Lemma registries_ok_same (w w' : World) :
  heap w' = heap w ->
  (forall d, Manager.transfers d (manager w')
               = Manager.transfers d (manager w)) ->
  registries_ok w -> registries_ok w'.
Proof.
  intros Hh Hm Hw d. unfold registry_ok. rewrite Hh, Hm. exact (Hw d).
Qed.

Lemma in_world_registries {A} (c : St Manager.t A) w :
  (forall m d, Manager.transfers d (snd (c m)) = Manager.transfers d m) ->
  registries_ok w -> registries_ok (snd (in_world c w)).
Proof.
  intros Hc. apply registries_ok_same.
  - apply in_world_heap.
  - intros d. unfold in_world. specialize (Hc (manager w) d).
    destruct (c (manager w)). exact Hc.
Qed.

Lemma on_registries {A} (r : ref) (c : Method A) w :
  (forall x m,
     registry_step x m (fst (snd (c (x, m)))) (snd (snd (c (x, m))))) ->
  registries_ok w -> registries_ok (snd (on r c w)).
Proof.
  intros Hc Hw. unfold on.
  destruct (heap w !! r) as [x|] eqn:Hx; [|exact Hw].
  specialize (Hc x (manager w)).
  destruct (c (x, manager w)) as [res [x' m']]. cbn in *.
  assert (Hlen : (r < length (heap w))%nat)
    by (apply lookup_lt_is_Some; eauto).
  destruct Hc as (Hid & Hdir & [(Hr & Hwt & Hdn)|[(Hr & Hwt & Hdel)|(Hdel & Hoth)]]).
  - intros d. destruct (Hw d) as [Hnd Hreg].
    assert (E : Manager.transfers d m' = Manager.transfers d (manager w))
      by (destruct d; assumption).
    split; cbn; rewrite E; [exact Hnd|].
    intros i r0 Hin. destruct (Hreg i r0 Hin) as (x0 & Hx0 & Hi & Hd & Hdone).
    destruct (decide (r0 = r)) as [->|Hne].
    + exists x'. rewrite Hx in Hx0. injection Hx0 as <-.
      rewrite list_lookup_insert_eq by exact Hlen.
      repeat split; congruence.
    + exists x0. rewrite list_lookup_insert_ne by congruence.
      repeat split; assumption.
  - intros d. destruct (Hw d) as [Hnd Hreg].
    assert (E : Manager.transfers d m' = Manager.transfers d (manager w))
      by (destruct d; assumption).
    split; cbn; rewrite E; [exact Hnd|].
    intros i r0 Hin. destruct (Hreg i r0 Hin) as (x0 & Hx0 & Hi & Hd & Hdone).
    destruct (decide (r0 = r)) as [->|Hne].
    + exfalso. rewrite Hx in Hx0. injection Hx0 as <-. subst i d.
      exact (dict_del_elem _ _ _ Hin Hdel).
    + exists x0. rewrite list_lookup_insert_ne by congruence.
      repeat split; assumption.
  - intros d. destruct (Hw d) as [Hnd Hreg]. unfold registry_ok. cbn.
    assert (Hsub :
      NoDup (Manager.transfers d m').*1 /\
      forall i r0, (i, r0) ∈ Manager.transfers d m' ->
        (i, r0) ∈ Manager.transfers d (manager w) /\
        (d = direction x -> i <> Transfer.id x)).
    { assert (Hdec : d = direction x \/ d <> direction x)
        by (destruct d, (direction x); eauto; right; discriminate).
      destruct Hdec as [->|Hd].
      - destruct (dict_del_sub _ _ _ Hdel Hnd) as [Hnd' Hsub].
        split; [exact Hnd'|]. intros i r0 Hin.
        destruct (Hsub i r0 Hin). split; [assumption|intros _; assumption].
      - rewrite (Hoth d Hd). split; [exact Hnd|].
        intros i r0 Hin. split; [exact Hin|intros E; contradiction]. }
    destruct Hsub as [Hnd' Hsub]. split; [exact Hnd'|].
    intros i r0 Hin. destruct (Hsub i r0 Hin) as [Hin0 Hne0].
    destruct (Hreg i r0 Hin0) as (x0 & Hx0 & Hi & Hd & Hdone).
    destruct (decide (r0 = r)) as [->|Hne].
    + exfalso. rewrite Hx in Hx0. injection Hx0 as <-.
      exact (Hne0 (eq_sym Hd) (eq_sym Hi)).
    + exists x0. rewrite list_lookup_insert_ne by congruence.
      repeat split; assumption.
Qed.

Ltac registry :=
  cbn; split; [reflexivity|]; split; [reflexivity|];
  first
    [ left; split; [reflexivity|]; split; reflexivity
    | right; left; split; [reflexivity|]; split;
        [reflexivity|first [assumption|reflexivity]]
    | right; right; split;
        [ first [assumption|reflexivity]
        | intros [] Hd; first [reflexivity|exfalso; apply Hd; reflexivity] ] ].

Lemma finish_registry_step s x m :
  registry_step x m (fst (snd (finish s (x, m)))) (snd (snd (finish s (x, m)))).
Proof.
  destruct x as [i st d dn tm hs [w|r]], m as [rt wt rs ws inv q sl nt];
    unfold registry_step; unfold_methods; method_cases; registry.
Qed.

Lemma begin_registry_step self x m :
  registry_step x m (fst (snd (begin self (x, m))))
    (snd (snd (begin self (x, m)))).
Proof.
  destruct x as [i st d dn tm hs [w|r]], m as [rt wt rs ws inv q sl nt];
    unfold registry_step, begin; unfold_methods; method_cases; registry.
Qed.

Lemma timer_run_registry_step self x m :
  registry_step x m (fst (snd (timer_run self (x, m))))
    (snd (snd (timer_run self (x, m)))).
Proof.
  destruct x as [i st d dn tm hs [w|r]], m as [rt wt rs ws inv q sl nt];
    unfold registry_step, timer_run, timer_callback; unfold_methods;
    method_cases; registry.
Qed.

Lemma timer_start_untouched self x m :
  let s := snd (timer_start self (x, m)) in
  Transfer.id (fst s) = Transfer.id x /\
  direction (fst s) = direction x /\
  Manager.read_transfers (snd s) = Manager.read_transfers m /\
  Manager.write_transfers (snd s) = Manager.write_transfers m /\
  Transfer.done (fst s) = Transfer.done x.
Proof.
  destruct x as [i st d dn tm hs v], m as [rt wt rs ws inv q sl nt].
  unfold_methods. cbn. destruct tm; cbn; repeat split; reflexivity.
Qed.

Lemma timer_stopped_transfers d x m :
  Manager.transfers d (timer_stopped x m) = Manager.transfers d m.
Proof.
  unfold timer_stopped, without_task.
  destruct (Transfer.response_timer x), d, m; reflexivity.
Qed.

Lemma handle_chunk_registry_step fuel self chunk x m :
  registry_step x m (fst (snd (handle_chunk fuel self chunk (x, m))))
    (snd (snd (handle_chunk fuel self chunk (x, m)))).
Proof.
  destruct (Transfer.variant x) as [w|r] eqn:Hv.
  - destruct (Z_le_gt_dec (Chunk.get_offset chunk) (len (Transfer.data x)))
      as [Hle|Hgt].
    + rewrite (handle_chunk_write_in_range fuel self x m w chunk Hv Hle).
      set (x1 := Transfer.with_variant _ _).
      destruct (send_loop_summary fuel x1 (timer_stopped x m) _ eq_refl)
        as (res & cs & w' & E & _).
      unfold bind. rewrite E.
      set (x2 := Transfer.with_history _ _).
      assert (H2 : Transfer.id x2 = Transfer.id x /\
                   direction x2 = direction x /\
                   Transfer.done x2 = Transfer.done x).
      { subst x2 x1. unfold direction. rewrite Hv. destruct x; cbn.
        repeat split; reflexivity. }
      destruct H2 as (Hid & Hdir & Hdn).
      pose proof (timer_stopped_transfers Reading x m) as Hrt.
      pose proof (timer_stopped_transfers Writing x m) as Hwt.
      cbn in Hrt, Hwt.
      split; [|split; [|left]];
        destruct res as [[]|e|]; cbn [fst snd];
        try (destruct (timer_start_untouched self x2 (timer_stopped x m))
               as (Ti & Td & Tr & Tw & Tdn));
        repeat split; congruence.
    + assert (E : (Chunk.get_offset chunk >? len (Transfer.data x)) = true)
        by lia.
      destruct x as [i s d dn tm hs v], m as [rt wt rs ws inv q sl nt].
      simpl in *. subst.
      unfold registry_step, handle_chunk. unfold_methods. cbn.
      destruct tm; cbn; rewrite E; method_cases; registry.
  - destruct x as [i s d dn tm hs v], m as [rt wt rs ws inv q sl nt].
    simpl in *. subst.
    unfold registry_step, handle_chunk. unfold_methods. cbn.
    method_cases; registry.
Qed.

(** *** The events *)

Lemma unschedule_transfers k m d :
  Manager.transfers d (snd (unschedule k m)) = Manager.transfers d m.
Proof. destruct m, d; reflexivity. Qed.

Lemma open_stream_transfers d0 m d :
  Manager.transfers d (snd (open_stream d0 m)) = Manager.transfers d m.
Proof. destruct m, d, d0; reflexivity. Qed.

Lemma new_transfer_world d x w :
  snd ((let* transfer := alloc x in start_transfer d transfer >> ret transfer)
         w) =
    mkWorld (heap w ++ [x])
      (started d (Transfer.id x) (length (heap w)) (manager w)).
Proof.
  pose proof (start_new_transfer d x w) as E.
  unfold bind in *. unfold alloc in *.
  destruct (start_transfer d _ _) as [[[]|e|] w']; inversion E; reflexivity.
Qed.

Lemma started_transfers d i r m :
  dict_mem i (Manager.transfers d m) = false ->
  Manager.transfers d (started d i r m) = Manager.transfers d m ++ [(i, r)] /\
  forall d', d' <> d ->
    Manager.transfers d' (started d i r m) = Manager.transfers d' m.
Proof.
  intros H. unfold started.
  destruct m as [rt wt rs ws inv q sl nt], d; cbn in *;
    rewrite ?(dict_set_new _ _ _ H);
    (split; [|intros [] Hd; try (exfalso; apply Hd; reflexivity)]);
    repeat match goal with
           | |- context [match ?s with Some _ => _ | None => _ end] =>
               destruct s
           end; reflexivity.
Qed.

Lemma new_transfer_registries d x w :
  dict_mem (Transfer.id x) (Manager.transfers d (manager w)) = false ->
  direction x = d ->
  Transfer.done x = false ->
  registries_ok w ->
  registries_ok
    (mkWorld (heap w ++ [x])
       (started d (Transfer.id x) (length (heap w)) (manager w))).
Proof.
  intros Hmem Hdir Hdone Hw d'. destruct (Hw d') as [Hnd Hreg].
  unfold registry_ok. cbn [heap manager].
  destruct (started_transfers d _ (length (heap w)) _ Hmem) as [Hsame Hoth].
  assert (Hold : forall i r, (i, r) ∈ Manager.transfers d' (manager w) ->
            exists x0, (heap w ++ [x]) !! r = Some x0 /\
              Transfer.id x0 = i /\ direction x0 = d' /\
              Transfer.done x0 = false).
  { intros i r Hin. destruct (Hreg i r Hin) as (x0 & Hx0 & H).
    exists x0. split; [|exact H]. apply lookup_app_l_Some, Hx0. }
  assert (Hdec : d' = d \/ d' <> d)
    by (destruct d, d'; eauto; right; discriminate).
  destruct Hdec as [->|Hne]; [|rewrite (Hoth d' Hne); split; assumption].
  rewrite Hsame. split.
  - rewrite fmap_app. apply NoDup_app. split; [exact Hnd|]. split.
    + intros k Hk Hk'. apply list_elem_of_singleton in Hk'. subst k.
      exact (dict_not_mem_keys _ _ Hmem Hk).
    + apply NoDup_singleton.
  - intros i r Hin. apply elem_of_app in Hin as [Hin|Hin]; [auto|].
    apply list_elem_of_singleton in Hin. injection Hin as -> ->.
    exists x. split; [apply list_lookup_middle; reflexivity|].
    repeat split; assumption.
Qed.

Lemma finish_all_registries d used items : forall w,
  registries_ok w -> registries_ok (snd (finish_all d used items w)).
Proof.
  induction items as [|[k r] items IH]; intros w Hw; simpl.
  - apply bind_preserves; [| |exact Hw].
    + intros w'. apply in_world_registries. reflexivity.
    + intros transfers w' Hw'. destruct (negb _); exact Hw'.
  - apply bind_preserves; [| |exact Hw].
    + intros w'. apply in_world_registries. reflexivity.
    + intros transfers w' Hw'. destruct (negb _); [exact Hw'|].
      apply bind_preserves; [|intros _; exact IH|exact Hw'].
      intros w''. apply on_registries. apply finish_registry_step.
Qed.

Lemma handle_chunk_registries fuel d chunk w :
  registries_ok w -> registries_ok (snd (manager_handle_chunk fuel d chunk w)).
Proof.
  intros Hw. unfold manager_handle_chunk.
  apply bind_preserves; [| |exact Hw].
  - intros w'. apply in_world_registries. reflexivity.
  - intros transfers w' Hw'.
    destruct (dict_get _ transfers) as [r|]; [|exact Hw'].
    destruct (Chunk.status chunk); apply on_registries;
      [apply finish_registry_step|exact Hw'
      |apply handle_chunk_registry_step|exact Hw'].
Qed.

Lemma on_error_registries d s w :
  registries_ok w -> registries_ok (snd (on_error d s w)).
Proof.
  intros Hw. unfold on_error.
  destruct (is_failed_precondition s).
  { apply in_world_registries; [|exact Hw].
    intros m d'. apply open_stream_transfers. }
  apply bind_preserves; [| |exact Hw].
  - intros w'. apply in_world_registries.
    intros m d'. destruct m, d, d'; reflexivity.
  - intros _. apply bind_preserves.
    + intros w'. apply in_world_registries. reflexivity.
    + intros transfers. apply bind_preserves.
      * apply finish_all_registries.
      * intros _ w' Hw' d'. destruct (Hw' d') as [Hnd Hreg].
        unfold in_world, modify. cbn [snd heap manager].
        unfold registry_ok. cbn [heap manager].
        destruct (manager w') as [rt wt rs ws inv q sl nt], d, d';
          cbn in *; (split; [first [exact Hnd|constructor]|]);
          first [exact Hreg|intros i r Hin; inversion Hin].
Qed.

Lemma call_registries d x w :
  direction x = d ->
  Transfer.done x = false ->
  registries_ok w ->
  registries_ok
    (snd ((let* transfers := in_world (gets (Manager.transfers d)) in
           if dict_mem (Transfer.id x) transfers then raise ValueError
           else
             let* transfer := alloc x in
             start_transfer d transfer >> ret transfer) w)).
Proof.
  intros Hdir Hdone Hw.
  unfold bind at 1. unfold in_world at 1, gets at 1. cbn [fst snd].
  rewrite world_eta.
  destruct (dict_mem _ _) eqn:Hmem; [exact Hw|].
  rewrite new_transfer_world.
  apply new_transfer_registries; assumption.
Qed.

Lemma step_registries fuel ev w :
  registries_ok w -> registries_ok (snd (step fuel ev w)).
Proof.
  intros Hw.
  destruct ev as [i|i data| |chunk|chunk|k|s|s]; cbn [step].
  - apply bind_preserves; [|intros ? ? H; exact H|exact Hw].
    intros w'. apply (call_registries Reading (ReadTransfer_new i 3 8192 1024 None));
      reflexivity.
  - apply bind_preserves; [|intros ? ? H; exact H|exact Hw].
    intros w'. apply (call_registries Writing (WriteTransfer_new i data));
      reflexivity.
  - unfold begin_next.
    apply bind_preserves; [| |exact Hw].
    { intros w'. apply in_world_registries. reflexivity. }
    intros [|r queue] w' Hw'; [exact Hw'|].
    apply bind_preserves; [| |exact Hw'].
    { intros w''. apply in_world_registries. intros [] []; reflexivity. }
    intros _ w''. apply on_registries, begin_registry_step.
  - apply handle_chunk_registries, Hw.
  - apply handle_chunk_registries, Hw.
  - unfold timer_wakes.
    apply bind_preserves; [| |exact Hw].
    { intros w'. apply in_world_registries. reflexivity. }
    intros sleeping w' Hw'.
    destruct (owner k sleeping) as [r|]; [|exact Hw'].
    apply bind_preserves; [| |exact Hw'].
    { intros w''. apply in_world_registries.
      intros m d. apply unschedule_transfers. }
    intros _ w''. apply on_registries, timer_run_registry_step.
  - apply on_error_registries, Hw.
  - apply on_error_registries, Hw.
Qed.

Lemma run_registries fuel evs : forall w,
  registries_ok w -> registries_ok (run fuel evs w).
Proof.
  induction evs as [|ev evs IH]; intros w Hw; [exact Hw|].
  cbn [run fold_left]. apply IH. apply step_registries, Hw.
Qed.

(** X15: Between any two events of a run: a transfer the registry of a
    direction holds under an id is an object of that id and of the class
    of that direction, and its [done] is unset.  So the manager never
    hands a chunk to a transfer that has finished, whatever the order of
    the calls, the chunks, the timeouts and the stream errors was. *)
Theorem registered_transfer_has_not_finished fuel evs d i (r : ref) :
  dict_get i (Manager.transfers d (manager (run fuel evs World_new)))
    = Some r ->
  exists x,
    heap (run fuel evs World_new) !! r = Some x /\
    Transfer.id x = i /\
    direction x = d /\
    Transfer.done x = false.
Proof.
  intros Hget.
  assert (Hall : registries_ok (run fuel evs World_new)).
  { apply run_registries. intros d'. split.
    - destruct d'; constructor.
    - intros i' r' Hin. destruct d'; inversion Hin. }
  exact (proj2 (Hall d) i r (dict_get_elem _ _ _ Hget)).
Qed.

Lemma registered_transfer_has_not_finished_witness :
  exists x,
    heap (run 0 [CallRead 3; CallWrite 7 (b_ "hello"); NewTransfer]
            World_new) !! 1%nat = Some x /\
    Transfer.id x = 7 /\
    direction x = Writing /\
    Transfer.done x = false.
Proof.
  apply (registered_transfer_has_not_finished 0
           [CallRead 3; CallWrite 7 (b_ "hello"); NewTransfer] Writing 7
           1%nat).
  vm_compute. reflexivity.
Defined.

(** ** What read returns *)

Lemma read_return_run (r : ref) w x :
  heap w !! r = Some x ->
  read_return r w =
    (if Transfer.done x
     then if ok (Transfer.status x) then Ret (Transfer.data x)
          else Raise (Error (Transfer.id x) (Transfer.status x))
     else Hang,
     w).
Proof.
  intros Hx. unfold read_return.
  assert (E : mkWorld (<[r := x]> (heap w)) (manager w) = w).
  { rewrite list_insert_id by exact Hx. apply world_eta. }
  destruct x as [i st d dn tm hs v].
  destruct dn, (ok st) eqn:Eok.
  - erewrite on_run; [|exact Hx|unfold done_wait; unfold_methods; cbn;
                                 rewrite Eok; reflexivity].
    rewrite E. cbn. rewrite ?Eok. reflexivity.
  - erewrite on_run; [|exact Hx|unfold done_wait; unfold_methods; cbn;
                                 rewrite Eok; reflexivity].
    rewrite E. cbn. rewrite ?Eok. reflexivity.
  - erewrite on_run; [|exact Hx|unfold done_wait; unfold_methods; cbn;
                                 reflexivity].
    rewrite E. cbn. rewrite ?Eok. reflexivity.
  - erewrite on_run; [|exact Hx|unfold done_wait; unfold_methods; cbn;
                                 reflexivity].
    rewrite E. cbn. rewrite ?Eok. reflexivity.
Qed.

(** X16: [Manager.read] from [transfer.done.wait()] on, at any point of any
    run: the caller is held as long as [done.set()] was never called on
    its transfer; after that it gets [Error(id, status)] when the status
    is not OK, and otherwise the bytes of the chunks the transfer took
    in order, joined; and the call changes nothing. *)
Theorem read_returns_the_chunks_taken_in_order fuel evs (r : ref) x :
  heap (run fuel evs World_new) !! r = Some x ->
  direction x = Reading ->
  read_return r (run fuel evs World_new) =
    (match done_sets (Transfer.history x) with
     | O => Hang
     | S _ =>
         if ok (Transfer.status x)
         then Ret (payload (in_order 0 (handled (Transfer.history x))))
         else Raise (Error (Transfer.id x) (Transfer.status x))
     end,
     run fuel evs World_new).
Proof.
  intros Hx Hdir. rewrite (read_return_run r _ x Hx).
  assert (Hord : heap_all read_in_order (run fuel evs World_new)).
  { apply run_preserves; [exact read_in_order_invariant|constructor]. }
  assert (Hdone : heap_all done_as_recorded (run fuel evs World_new)).
  { apply run_preserves; [exact done_as_recorded_invariant|constructor]. }
  pose proof (Forall_lookup_1 _ _ _ _ Hord Hx) as HP.
  destruct (Forall_lookup_1 _ _ _ _ Hdone Hx) as [Hd _].
  unfold direction in Hdir.
  destruct (Transfer.variant x) as [w|rd] eqn:Hv; [discriminate|].
  rewrite Hd, (proj1 (HP rd Hv)).
  destruct (done_sets (Transfer.history x)); reflexivity.
Qed.

Lemma read_returns_the_chunks_taken_in_order_witness :
  exists x,
    heap (run 0 gap_run World_new) !! 0%nat = Some x /\
    direction x = Reading /\
    read_return 0%nat (run 0 gap_run World_new) =
      (Ret (b_ "abc"), run 0 gap_run World_new).
Proof.
  eexists. split; [vm_compute; reflexivity|]. split; [reflexivity|].
  refine (eq_trans
            (read_returns_the_chunks_taken_in_order 0 gap_run 0%nat _ _ _) _);
    [vm_compute; reflexivity|reflexivity|].
  vm_compute. reflexivity.
Defined.
